(** * Shredder: deblending orchestration, template flux and model subtraction

    A shallow embedding of [shredder/shredding.py],
    [shredder/subtractor.py] and [shredder/guesses.py].

    - Python integers are [Z]; [%] and [//] are [Z.modulo] and [Z.div], which
      round towards minus infinity as Python does.
    - numpy [float64] values are Rocq's primitive binary64 floats, so rounding,
      infinities and NaN behave as they do in the program.
    - A 2-d numpy array is the list of its rows.
    - Code that can raise returns [Result]; code that mutates an object and
      can raise runs in the state-and-exception monad [M].
    - What the program takes from ngmix, numpy's reductions and the modules
      [em], [procflags] and [coadding] is a [Variable] of the enclosing
      section. *)

From Stdlib Require Import ZArith List Bool Lia Floats Uint63.
From Stdlib Require String.
Import ListNotations.

Set Warnings "-inexact-float".
Set Implicit Arguments.

Local Open Scope Z_scope.

(** ** Exceptions and results *)

Inductive exn : Type :=
| IndexError
| ValueError
| KeyError
| AttributeError
| ZeroDivisionError
| OverflowError
| RuntimeError
| UnboundLocalError
| UserException (tag : Z).

Definition Result (A : Type) : Type := (exn + A)%type.

Definition ok {A : Type} (a : A) : Result A := inr a.
Definition raise {A : Type} (e : exn) : Result A := inl e.

Definition rbind {A B : Type} (r : Result A) (k : A -> Result B) : Result B :=
  match r with
  | inl e => inl e
  | inr a => k a
  end.

Declare Scope result_scope.
Delimit Scope result_scope with result.
Notation "x <- r ;; k" := (rbind r (fun x => k))
  (at level 100, r at next level, right associativity) : result_scope.

(** A local variable that is read before any assignment raises. *)
Definition read_local {A : Type} (x : option A) : Result A :=
  match x with
  | Some v => ok v
  | None => raise UnboundLocalError
  end.

(** ** numpy arrays of float64 *)

Module Np.

Definition Image : Type := list (list float).

Fixpoint zip_with {A B C : Type} (f : A -> B -> C) (xs : list A) (ys : list B)
  : list C :=
  match xs, ys with
  | x :: xs', y :: ys' => f x y :: zip_with f xs' ys'
  | _, _ => []
  end.

(** Elementwise binary operation of two arrays of one shape.  The program
    only combines arrays over one band's pixel grid. *)
Definition map2 (f : float -> float -> float) (a b : Image) : Image :=
  zip_with (zip_with f) a b.

Definition add : Image -> Image -> Image := map2 PrimFloat.add.
Definition sub : Image -> Image -> Image := map2 PrimFloat.sub.
Definition mul : Image -> Image -> Image := map2 PrimFloat.mul.

(** [a * s] for a scalar [s]. *)
Definition scale (a : Image) (s : float) : Image :=
  map (map (fun x => PrimFloat.mul x s)) a.

(** [a ** 2]: numpy squares by one multiplication. *)
Definition square (a : Image) : Image :=
  map (map (fun x => PrimFloat.mul x x)) a.

Definition zeros_like (a : Image) : Image :=
  map (map (fun _ => 0%float)) a.

Definition shape (a : Image) : list nat := map (@length float) a.

(** [a.size] *)
Definition size (a : Image) : Z := Z.of_nat (length (concat a)).

(** Summation in index order from zero: what [ndarray.sum] computes on the
    short arrays of the examples below. *)
Definition seq_sum (a : Image) : float :=
  fold_left PrimFloat.add (concat a) 0%float.

(** A Python integer used as a float operand. *)
Definition float_of_Z (z : Z) : float :=
  if z <? 0 then PrimFloat.opp (PrimFloat.of_uint63 (Uint63.of_Z (- z)))
  else PrimFloat.of_uint63 (Uint63.of_Z z).

(** Python's [a[start:end]] on a sequence. *)
Definition clamp_index (len i : Z) : Z :=
  if i <? 0 then Z.max 0 (i + len) else Z.min i len.

Definition slice {A : Type} (l : list A) (start stop : Z) : list A :=
  let len := Z.of_nat (length l) in
  let s := clamp_index len start in
  let e := clamp_index len stop in
  firstn (Z.to_nat (e - s)) (skipn (Z.to_nat s) l).

(** [a[r0:r1, c0:c1]] *)
Definition slice2 (a : Image) (r0 r1 c0 c1 : Z) : Image :=
  map (fun row => slice row c0 c1) (slice a r0 r1).

End Np.

(** ** shredding.py: get_flux *)

Module Flux.

Import Np.

Section GetFlux.

(** [ndarray.sum] of numpy. *)
Variable ndsum : Image -> float.

(** The local variables of [get_flux]; [xcorr_sum], [msq_sum] and [chi2]
    are unbound until their first assignment. *)
Record locals : Type := mk_locals {
  flux : float;
  flux_err : float;
  model : Image;
  xcorr_sum : option float;
  msq_sum : option float;
  chi2 : option float
}.

Inductive ctl : Type := Continue | Break.

(** The body of [for ipass in [1, 2]]. *)
Definition pass_body (im wt : Image) (ipass : Z) (st : locals)
  : Result (locals * ctl) :=
  let st1 :=
    if ipass =? 1 then
      let m := scale (model st) (1 / ndsum (model st))%float in
      {| flux := flux st; flux_err := flux_err st; model := m;
         xcorr_sum := Some (ndsum (mul (mul m im) wt));
         msq_sum := Some (ndsum (mul (mul m m) wt));
         chi2 := chi2 st |}
    else
      let m := scale (model st) (flux st) in
      {| flux := flux st; flux_err := flux_err st; model := m;
         xcorr_sum := xcorr_sum st;
         msq_sum := msq_sum st;
         chi2 := Some (ndsum (mul (square (sub m im)) wt)) |} in
  if ipass =? 1 then
    (msq <- read_local (msq_sum st1) ;;
     if PrimFloat.eqb msq 0 then ok (st1, Break)
     else
       xc <- read_local (xcorr_sum st1) ;;
       ok ({| flux := (xc / msq)%float; flux_err := flux_err st1;
              model := model st1; xcorr_sum := xcorr_sum st1;
              msq_sum := msq_sum st1; chi2 := chi2 st1 |}, Continue))%result
  else ok (st1, Continue).

(** A [for] loop whose body may [break]. *)
Fixpoint for_each {S X : Type} (body : X -> S -> Result (S * ctl))
  (xs : list X) (s : S) : Result S :=
  match xs with
  | [] => ok s
  | x :: xs' =>
      match body x s with
      | inl e => inl e
      | inr (s', Break) => ok s'
      | inr (s', Continue) => for_each body xs' s'
      end
  end.

Definition sentinel_flux : float := (-9999e9)%float.
Definition sentinel_err : float := 1e9%float.

Definition get_flux (im wt model_in : Image) : Result (float * float) :=
  (let st0 := {| flux := sentinel_flux; flux_err := sentinel_err;
                 model := model_in;
                 xcorr_sum := None; msq_sum := None; chi2 := None |} in
   st <- for_each (pass_body im wt) [1; 2] st0 ;;
   msq <- read_local (msq_sum st) ;;
   if PrimFloat.eqb msq 0 then ok (flux st, flux_err st)
   else
     c2 <- read_local (chi2 st) ;;
     let arg := (c2 / msq / float_of_Z (size im - 1))%float in
     if PrimFloat.leb 0 arg then ok (flux st, PrimFloat.sqrt arg)
     else ok (flux st, flux_err st))%result.

(** The weighted least-squares quantities of the estimator, written
    directly.  Products are grouped as the program evaluates them. *)

Definition unit_template (template : Image) : Image :=
  scale template (1 / ndsum template)%float.

Definition S_xy (im wt template : Image) : float :=
  ndsum (mul (mul (unit_template template) im) wt).

Definition S_xx (wt template : Image) : float :=
  ndsum (mul (mul (unit_template template) (unit_template template)) wt).

Definition fit_flux (im wt template : Image) : float :=
  (S_xy im wt template / S_xx wt template)%float.

Definition chi2_of (im wt template : Image) : float :=
  ndsum (mul (square (sub (scale (unit_template template)
                                 (fit_flux im wt template)) im)) wt).

Definition err_arg (im wt template : Image) : float :=
  (chi2_of im wt template / S_xx wt template / float_of_Z (size im - 1))%float.

End GetFlux.

End Flux.

(** ** State and exceptions *)

(** A method that mutates [self] and may raise: the state after the call is
    kept also when the call raises. *)
Definition M (S A : Type) : Type := S -> S * Result A.

Definition ret {S A : Type} (a : A) : M S A := fun s => (s, ok a).

Definition throw {S A : Type} (e : exn) : M S A := fun s => (s, raise e).

Definition bind {S A B : Type} (m : M S A) (k : A -> M S B) : M S B :=
  fun s =>
    match m s with
    | (s', inl e) => (s', inl e)
    | (s', inr a) => k a s'
    end.

Definition get {S : Type} : M S S := fun s => (s, ok s).

Definition modify {S : Type} (f : S -> S) : M S unit := fun s => (f s, ok tt).

Definition lift {S A : Type} (r : Result A) : M S A := fun s => (s, r).

(** [try: body finally: fin] *)
Definition try_finally {S A : Type} (body : M S A) (fin : M S unit) : M S A :=
  fun s =>
    match body s with
    | (s1, r) =>
        match fin s1 with
        | (s2, inl e) => (s2, inl e)
        | (s2, inr _) => (s2, r)
        end
    end.

Declare Scope monad_scope.
Delimit Scope monad_scope with monad.
Notation "x <- m ;; k" := (bind m (fun x => k))
  (at level 100, m at next level, right associativity) : monad_scope.
Notation "m ;;; k" := (bind m (fun _ => k))
  (at level 100, right associativity) : monad_scope.

(** ** ngmix data *)

Module Ngmix.

Import Np.

(** One Gaussian of a mixture. *)
Record Gauss : Type := mk_gauss {
  p : float;
  row : float;
  col : float;
  irr : float;
  irc : float;
  icc : float
}.

Definition GMix : Type := list Gauss.

Record Jacobian : Type := mk_jacobian {
  row0 : float;
  col0 : float;
  dvdrow : float;
  dvdcol : float;
  dudrow : float;
  dudcol : float;
  scale : float
}.

(** [jacobian.set_cen(row=, col=)] *)
Definition set_cen (j : Jacobian) (r c : float) : Jacobian :=
  {| row0 := r; col0 := c;
     dvdrow := dvdrow j; dvdcol := dvdcol j;
     dudrow := dudrow j; dudcol := dudcol j; scale := scale j |}.

(** The PSF of an observation is an observation of its own, without a PSF. *)
Record PsfObservation : Type := mk_psf {
  psf_image : Image;
  psf_weight : Image;
  psf_jacobian : Jacobian
}.

Record Observation : Type := mk_obs {
  image : Image;
  weight : Image;
  jacobian : Jacobian;
  psf : option PsfObservation
}.

(** Assignment to [obs.image] inside [obs.writeable()]. *)
Definition set_image (o : Observation) (im : Image) : Observation :=
  {| image := im; weight := weight o; jacobian := jacobian o; psf := psf o |}.

(** [ngmix.Observation(image, jacobian=, psf=)]: the weight defaults to
    ones. *)
Definition new_obs (im : Image) (j : Jacobian) (ps : option PsfObservation)
  : Observation :=
  {| image := im; weight := map (map (fun _ => (0 + 1)%float)) im;
     jacobian := j; psf := ps |}.

Definition ObsList : Type := list Observation.
Definition MultiBandObsList : Type := list ObsList.

(** [image.shape] of a 2-d array *)
Definition shape2 (im : Image) : Z * Z :=
  (Z.of_nat (length im), Z.of_nat (length (hd [] im))).

(** The result dictionary of an EM fitter: the flags and the sky offset,
    which the program reads, two of the fitter's diagnostics, and the keys
    the program adds ([None] while a key is absent). *)
Record EMResult : Type := mk_emresult {
  flags : Z;
  sky : float;
  numiter : Z;
  fdiff : float;
  gmix : option GMix;
  total_flux : option float;
  total_flux_err : option float
}.

(** A fitter after [go]: [get_result()], [get_gmix()],
    [get_convolved_gmix()]. *)
Record EM : Type := mk_em {
  get_result : EMResult;
  get_gmix : GMix;
  get_convolved_gmix : GMix
}.

End Ngmix.

(** ** shredding.py: Shredder *)

Module Shredding.

Import Np Ngmix Flux.

Section Shredder.

(** [ndarray.sum] of numpy. *)
Variable ndsum : Image -> float.

(** [ngmix.em.EM_MAXITER], [procflags.COADD_FAILURE] and
    [procflags.BAND_FAILURE]. *)
Variables EM_MAXITER COADD_FAILURE BAND_FAILURE : Z.

(** [ngmix.em.prep_image]. *)
Variable prep_image : Image -> Image * float.

(** [coadding.make_coadd_obs]. *)
Variable make_coadd_obs : MultiBandObsList -> Observation.

(** [GMixEMFixCen(obs, miniter=, maxiter=, tol=)] and
    [GMixEMPOnly(obs, miniter=, maxiter=, tol=)] of the module [em], each
    followed by [go(gmix_guess, sky)]. *)
Variable GMixEMFixCen : Observation -> Z -> Z -> float -> GMix -> float -> EM.
Variable GMixEMPOnly : Observation -> Z -> Z -> float -> GMix -> float -> EM.

(** [gmix.make_image(shape, jacobian=)] and [gmix.set_flux(flux)]. *)
Variable make_image : GMix -> Z * Z -> Jacobian -> Image.
Variable set_flux : GMix -> float -> GMix.

(** [x ** y] on floats: the C library's [pow]. *)
Variable float_pow : float -> float -> float.

(** [np.random.RandomState] and its [uniform(low=, high=)]. *)
Variable RandomState : Type.
Variable uniform : RandomState -> float -> float -> float * RandomState.

(** The dictionary [self._result]; [band_results] is absent until
    [_do_multiband_fit] sets it. *)
Record ResultDict : Type := mk_result {
  res_flags : Z;
  coadd_result : option EMResult;
  band_results : option (list EMResult)
}.

Record Shredder : Type := mk_shredder {
  mbobs : MultiBandObsList;
  coadd_obs : Observation;
  miniter : Z;
  maxiter : Z;
  tol : float;
  _rng : RandomState;
  _result : option ResultDict
}.

Definition __init__ (mbobs0 : MultiBandObsList) (miniter0 maxiter0 : Z)
  (tol0 : float) (rng : RandomState) : Shredder :=
  {| mbobs := mbobs0; coadd_obs := make_coadd_obs mbobs0;
     miniter := miniter0; maxiter := maxiter0; tol := tol0;
     _rng := rng; _result := None |}.

Definition set_result (r : option ResultDict) (self : Shredder) : Shredder :=
  {| mbobs := mbobs self; coadd_obs := coadd_obs self;
     miniter := miniter self; maxiter := maxiter self; tol := tol self;
     _rng := _rng self; _result := r |}.

Definition set_rng (g : RandomState) (self : Shredder) : Shredder :=
  {| mbobs := mbobs self; coadd_obs := coadd_obs self;
     miniter := miniter self; maxiter := maxiter self; tol := tol self;
     _rng := g; _result := _result self |}.

Definition get_result (self : Shredder) : Result ResultDict :=
  match _result self with
  | Some r => ok r
  | None => raise RuntimeError
  end.

(** [self._result] read inside a method. *)
Definition read_result : M Shredder ResultDict :=
  fun self =>
    match _result self with
    | Some r => (self, ok r)
    | None => (self, raise AttributeError)
    end.

(** An in-place update of the dictionary [self._result]. *)
Definition update_result (f : ResultDict -> ResultDict) : M Shredder unit :=
  (r <- read_result ;; modify (set_result (Some (f r))))%monad.

Definition or_flags (bit : Z) (r : ResultDict) : ResultDict :=
  {| res_flags := Z.lor (res_flags r) bit;
     coadd_result := coadd_result r; band_results := band_results r |}.

Definition set_coadd_result (c : EMResult) (r : ResultDict) : ResultDict :=
  {| res_flags := res_flags r;
     coadd_result := Some c; band_results := band_results r |}.

Definition set_band_results (l : list EMResult) (r : ResultDict) : ResultDict :=
  {| res_flags := res_flags r;
     coadd_result := coadd_result r; band_results := Some l |}.

Definition set_gmix (g : GMix) (c : EMResult) : EMResult :=
  {| flags := flags c; sky := sky c; numiter := numiter c; fdiff := fdiff c;
     gmix := Some g;
     total_flux := total_flux c; total_flux_err := total_flux_err c |}.

(** [flags != 0 and flags & EM_MAXITER == 0]: the fit failed in such a way
    that the run cannot proceed. *)
Definition cannot_proceed (fl : Z) : bool :=
  negb (fl =? 0) && (Z.land fl EM_MAXITER =? 0).

Definition _do_coadd_fit (self : Shredder) (gmix_guess : GMix) : EM :=
  let '(imsky, sky0) := prep_image (image (coadd_obs self)) in
  let emobs :=
    new_obs imsky (jacobian (coadd_obs self)) (psf (coadd_obs self)) in
  GMixEMFixCen emobs (miniter self) (maxiter self) (tol self) gmix_guess sky0.

(** The loop of [_get_band_guess]: every amplitude is multiplied by
    [1.0 + rnum] for a fresh draw [rnum]. *)
Fixpoint perturb (gdata : GMix) (rng : RandomState) : GMix * RandomState :=
  match gdata with
  | [] => ([], rng)
  | g :: gdata' =>
      let '(rnum, rng1) := uniform rng (-0.01)%float 0.01%float in
      let g' := {| p := (p g * (1.0 + rnum))%float;
                   row := row g; col := col g;
                   irr := irr g; irc := irc g; icc := icc g |} in
      let '(rest, rng2) := perturb gdata' rng1 in
      (g' :: rest, rng2)
  end.

Definition _get_band_guess : M Shredder GMix :=
  (res <- read_result ;;
   match coadd_result res with
   | None => throw KeyError
   | Some cres =>
       match gmix cres with
       | None => throw KeyError
       | Some gm =>
           self <- get ;;
           let '(gmix_guess, rng') := perturb gm (_rng self) in
           modify (set_rng rng') ;;;
           ret gmix_guess
       end
   end)%monad.

Definition _get_band_fit (obs : Observation) : M Shredder EM :=
  (res <- read_result ;;
   match coadd_result res with
   | None => throw KeyError
   | Some coadd_res =>
       self <- get ;;
       let '(imsky, _) := prep_image (image obs) in
       let emobs := new_obs imsky (jacobian obs) None in
       gm_guess <- _get_band_guess ;;
       let use_sky := sky coadd_res in
       ret (GMixEMPOnly emobs (miniter self) (maxiter self) (tol self)
              gm_guess use_sky)
   end)%monad.

Definition _set_band_flux_and_gmix (obs : Observation) (em : EM)
  : Result EMResult :=
  (let res := Ngmix.get_result em in
   let gm := get_gmix em in
   let gm_convolved := get_convolved_gmix em in
   let bim := make_image gm_convolved (shape2 (image obs)) (jacobian obs) in
   fe <- get_flux ndsum (image obs) (weight obs) bim ;;
   let '(flux0, flux_err0) := fe in
   let gm' :=
     set_flux gm (flux0 * float_pow (scale (jacobian obs)) 2)%float in
   ok {| flags := flags res; sky := sky res;
         numiter := numiter res; fdiff := fdiff res;
         gmix := Some gm';
         total_flux := Some flux0;
         total_flux_err := Some flux0 |})%result.

(** [obslist[0]] *)
Definition first_obs (obslist : ObsList) : Result Observation :=
  match obslist with
  | obs :: _ => ok obs
  | [] => raise IndexError
  end.

(** The loop of [_do_multiband_fit] over the remaining bands. *)
Fixpoint band_loop (bands : MultiBandObsList) (reslist : list EMResult)
  : M Shredder (list EMResult) :=
  match bands with
  | [] => ret reslist
  | obslist :: bands' =>
      (obs <- lift (first_obs obslist) ;;
       em <- _get_band_fit obs ;;
       let bres := Ngmix.get_result em in
       bres' <- (if cannot_proceed (flags bres)
                 then (update_result (or_flags BAND_FAILURE) ;;; ret bres)
                 else lift (_set_band_flux_and_gmix obs em)) ;;
       band_loop bands' (reslist ++ [bres']))%monad
  end.

Definition _do_multiband_fit : M Shredder unit :=
  (_ <- read_result ;;
   self <- get ;;
   reslist <- band_loop (mbobs self) [] ;;
   update_result (set_band_results reslist))%monad.

(** [shred].  [cres] and [res['coadd_result']] name one dictionary, so the
    mixture assigned to [cres['gmix']] is seen through the result.  The
    statement [res['flags'] != cres['flags']] is a comparison whose value is
    dropped. *)
Definition shred (gmix_guess : GMix) : M Shredder unit :=
  (self <- get ;;
   let em_coadd := _do_coadd_fit self gmix_guess in
   modify (set_result
             (Some {| res_flags := 0; coadd_result := None;
                      band_results := None |})) ;;;
   let cres := Ngmix.get_result em_coadd in
   update_result (set_coadd_result cres) ;;;
   res <- read_result ;;
   let _compared := negb (res_flags res =? flags cres) in
   if cannot_proceed (flags cres)
   then update_result (or_flags COADD_FAILURE)
   else
     (update_result (set_coadd_result (set_gmix (get_gmix em_coadd) cres)) ;;;
      _do_multiband_fit))%monad.

(** *** Vocabulary of the statements about [shred] *)

(** The flux-only fit of one band, given the stored coadd result [c], its
    mixture [g] and the state of the random number generator. *)
Definition band_em (self : Shredder) (c : EMResult) (g : GMix)
  (rng : RandomState) (obs : Observation) : EM :=
  GMixEMPOnly (new_obs (fst (prep_image (image obs))) (jacobian obs) None)
    (miniter self) (maxiter self) (tol self)
    (fst (perturb g rng)) (sky c).

(** [bres] is the entry of [band_results] for the band [obslist]: the raw
    result of a fit that failed, or the result completed with the flux. *)
Definition band_entry (self : Shredder) (c : EMResult) (g : GMix)
  (obslist : ObsList) (bres : EMResult) : Prop :=
  exists obs others rng,
    obslist = obs :: others /\
    let em := band_em self c g rng obs in
    if cannot_proceed (flags (Ngmix.get_result em))
    then bres = Ngmix.get_result em
    else _set_band_flux_and_gmix obs em = ok bres.

(** [n] successive draws of [rng.uniform(low=-0.01, high=0.01)], and the
    Gaussian [g] with its amplitude multiplied by [1.0 + rnum]. *)
Fixpoint draws (n : nat) (rng : RandomState) : list float * RandomState :=
  match n with
  | O => ([], rng)
  | S n' =>
      let '(rnum, rng1) := uniform rng (-0.01)%float 0.01%float in
      let '(rest, rng2) := draws n' rng1 in
      (rnum :: rest, rng2)
  end.

Definition scale_amplitude (g : Gauss) (rnum : float) : Gauss :=
  {| p := (p g * (1.0 + rnum))%float; row := row g; col := col g;
     irr := irr g; irc := irc g; icc := icc g |}.

(** Fields of the shredder that no method changes after construction. *)
Definition same_config (s' s : Shredder) : Prop :=
  mbobs s' = mbobs s /\ coadd_obs s' = coadd_obs s /\
  miniter s' = miniter s /\ maxiter s' = maxiter s /\ tol s' = tol s.

(** A band result whose flags let the run proceed, and one whose flags do
    not. *)
Definition passes (b : EMResult) : Prop := cannot_proceed (flags b) = false.
Definition fails (b : EMResult) : Prop := cannot_proceed (flags b) = true.

(** The state in which [shred] starts the per-band refinement. *)
Definition refining (s : Shredder) (c : EMResult) : Shredder :=
  set_result (Some {| res_flags := 0; coadd_result := Some c;
                      band_results := None |}) s.

(** The state in which [shred] stops after a coadd failure. *)
Definition coadd_failed (s : Shredder) (c : EMResult) : Shredder :=
  set_result (Some {| res_flags := COADD_FAILURE; coadd_result := Some c;
                      band_results := None |}) s.

End Shredder.

End Shredding.

(** ** subtractor.py *)

Module Subtractor.

Import Np Ngmix.

(** [l[i]] on a Python list. *)
Definition py_index {A : Type} (l : list A) (i : Z) : Result A :=
  let len := Z.of_nat (length l) in
  let j := if i <? 0 then i + len else i in
  if (j <? 0) || (len <=? j) then raise IndexError
  else
    match nth_error l (Z.to_nat j) with
    | Some a => ok a
    | None => raise IndexError
    end.

(** [range(n)] *)
Definition range (n : Z) : list Z := map Z.of_nat (seq 0 (Z.to_nat n)).

Fixpoint mapM {A B : Type} (f : A -> Result B) (l : list A) : Result (list B) :=
  match l with
  | [] => ok []
  | a :: l' =>
      (b <- f a ;; bs <- mapM f l' ;; ok (b :: bs))%result
  end.

Fixpoint enumerate_from {A : Type} (k : Z) (l : list A) : list (Z * A) :=
  match l with
  | [] => []
  | a :: l' => (k, a) :: enumerate_from (k + 1) l'
  end.

Definition enumerate {A : Type} (l : list A) : list (Z * A) :=
  enumerate_from 0 l.

Fixpoint mapi_from {A B : Type} (f : nat -> A -> B) (k : nat) (l : list A)
  : list B :=
  match l with
  | [] => []
  | a :: l' => f k a :: mapi_from f (S k) l'
  end.

(** [int(x)] of a float: truncation towards zero. *)
Definition int_of_float (x : float) : Result Z :=
  match Prim2SF x with
  | S754_zero _ => ok 0
  | S754_infinity _ => raise OverflowError
  | S754_nan => raise ValueError
  | S754_finite s m e =>
      let a := if 0 <=? e then Z.shiftl (Z.pos m) e
               else Z.shiftr (Z.pos m) (- e) in
      ok (if s then - a else a)
  end.

Definition _get_start_end (image_dim cen rad : Z) : Result (Z * Z) :=
  let start := cen - rad in
  let end_ := cen + rad + 1 in
  if (start <? 0) || (start >? image_dim) then raise IndexError
  else ok (start, end_).

Definition _get_bbox (image_shape : Z * Z) (row col : float) (stamp_size : Z)
  : Result (Z * Z * Z * Z) :=
  (irow <- int_of_float row ;;
   icol <- int_of_float col ;;
   let rad := stamp_size / 2 in
   rr <- _get_start_end (fst image_shape) irow rad ;;
   cc <- _get_start_end (snd image_shape) icol rad ;;
   ok (fst rr, snd rr, fst cc, snd cc))%result.

Section ModelSubtractor.

(** [ngmix.pixels.make_coords(shape, jacobian)] followed by
    [ngmix.gmix.render_nb.render(gm, coords, buffer, fast_exp=1)]: the value
    written at pixel [(r, c)] of a buffer of the given shape. *)
Variable render_pixel : GMix -> Z * Z -> Jacobian -> nat -> nat -> float.

(** [gmix.get_cen()] and [jacobian.get_rowcol(v=, u=)]. *)
Variable gmix_get_cen : GMix -> float * float.
Variable get_rowcol : Jacobian -> float -> float -> float * float.

(** What the subtractor reads of the shredder it is given: [shredder.mbobs]
    and, in [shredder.result], the lists under ['band_gmix'] and
    ['band_gmix_convolved']. *)
Record ShredderView : Type := mk_view {
  sh_mbobs : MultiBandObsList;
  band_gmix : list GMix;
  band_gmix_convolved : list GMix
}.

Record ModelSubtractor : Type := mk_subtractor {
  shredder : ShredderView;
  nobj : Z;
  ngauss : Z;
  ngauss_per : Z;
  ngauss_convolved : Z;
  ngauss_per_convolved : Z;
  model_images : list (list Image);
  mbobs : MultiBandObsList
}.

(** [_set_ngauss_per]: (ngauss, ngauss_per, ngauss_convolved,
    ngauss_per_convolved). *)
Definition _set_ngauss_per (sh : ShredderView) (nobj0 : Z)
  : Result (Z * Z * Z * Z) :=
  (gm0 <- py_index (band_gmix sh) 0 ;;
   let ngauss0 := Z.of_nat (length gm0) in
   gmc0 <- py_index (band_gmix_convolved sh) 0 ;;
   let ngauss_convolved0 := Z.of_nat (length gmc0) in
   if nobj0 =? 0 then raise ZeroDivisionError
   else if negb (ngauss_convolved0 mod nobj0 =? 0) then raise ValueError
   else ok (ngauss0, ngauss0 / nobj0,
            ngauss_convolved0, ngauss_convolved0 / nobj0))%result.

Definition get_object_index_range (ngauss_per0 index : Z) : Z * Z :=
  (ngauss_per0 * index, ngauss_per0 * (index + 1)).

Definition get_object_index_range_convolved (ngauss_per_convolved0 index : Z)
  : Z * Z :=
  (ngauss_per_convolved0 * index, ngauss_per_convolved0 * (index + 1)).

Definition get_object_gmix_data (sh : ShredderView) (ngauss_per0 : Z)
  (index band : Z) : Result GMix :=
  (let '(start, end_) := get_object_index_range ngauss_per0 index in
   band_gm <- py_index (band_gmix sh) band ;;
   ok (slice band_gm start end_))%result.

Definition get_object_gmix_data_convolved (sh : ShredderView)
  (ngauss_per_convolved0 : Z) (index band : Z) : Result GMix :=
  (let '(start, end_) :=
     get_object_index_range_convolved ngauss_per_convolved0 index in
   band_gm <- py_index (band_gmix_convolved sh) band ;;
   ok (slice band_gm start end_))%result.

(** [gm = ngmix.GMix(ngauss=n); gm._data[:] = gmdata[:]]: the constructor
    allocates [n] rows and raises [ValueError] for a negative [n]; the
    assignment broadcasts a single row and refuses any other length than
    [n]. *)
Definition fill_gmix (n : Z) (gmdata : GMix) : Result GMix :=
  if n <? 0 then raise ValueError
  else if Z.of_nat (length gmdata) =? n then ok gmdata
  else
    match gmdata with
    | [g] => ok (repeat g (Z.to_nat n))
    | _ => raise ValueError
    end.

(** The model image of one object over the pixel grid of [obs]:
    [np.zeros_like(obs.image)] filled by the renderer. *)
Definition render_model (gm : GMix) (obs : Observation) : Image :=
  mapi_from
    (fun r rowv =>
       mapi_from
         (fun c _ => render_pixel gm (shape2 (image obs)) (jacobian obs) r c)
         0%nat rowv)
    0%nat (zeros_like (image obs)).

(** The inner loop of [_build_models]: one model image per object, each
    rendered from the object's slice of the band's convolved mixture. *)
Definition band_models (sh : ShredderView) (nobj0 ngauss_per_convolved0 : Z)
  (band : Z) (obs : Observation) : Result (list Image) :=
  mapM
    (fun iobj =>
       gm <- get_object_gmix_data_convolved sh ngauss_per_convolved0
               iobj band ;;
       ok (render_model gm obs))%result
    (range nobj0).

Definition _build_models (sh : ShredderView) (nobj0 ngauss_per_convolved0 : Z)
  : Result (list (list Image)) :=
  mapM
    (fun bo : Z * ObsList =>
       let '(band, obslist) := bo in
       (obs <- py_index obslist 0 ;;
        band_models sh nobj0 ngauss_per_convolved0 band obs)%result)
    (enumerate (sh_mbobs sh)).

(** The inner loop of [_build_subtracted_mbobs]: [diff_obs.image -=
    model_image] for every model image of the band, in order. *)
Definition subtract_models (obs : Observation) (band_model_images : list Image)
  : Observation :=
  fold_left (fun diff_obs model_image =>
               set_image diff_obs (sub (image diff_obs) model_image))
            band_model_images obs.

Fixpoint _build_subtracted_mbobs (mbobs_orig : MultiBandObsList)
  (model_images0 : list (list Image)) : Result MultiBandObsList :=
  match mbobs_orig, model_images0 with
  | obslist :: mbobs', band_model_images :: models' =>
      (obs <- py_index obslist 0 ;;
       rest <- _build_subtracted_mbobs mbobs' models' ;;
       ok ([subtract_models obs band_model_images] :: rest))%result
  | _, _ => ok []
  end.

Definition __init__ (sh : ShredderView) (nobj0 : Z) : Result ModelSubtractor :=
  (ng <- _set_ngauss_per sh nobj0 ;;
   let '(ngauss0, ngauss_per0, ngauss_convolved0, ngauss_per_convolved0) := ng in
   models <- _build_models sh nobj0 ngauss_per_convolved0 ;;
   sub_mbobs <- _build_subtracted_mbobs (sh_mbobs sh) models ;;
   ok {| shredder := sh; nobj := nobj0;
         ngauss := ngauss0; ngauss_per := ngauss_per0;
         ngauss_convolved := ngauss_convolved0;
         ngauss_per_convolved := ngauss_per_convolved0;
         model_images := models; mbobs := sub_mbobs |})%result.

Definition set_mbobs (mb : MultiBandObsList) (self : ModelSubtractor)
  : ModelSubtractor :=
  {| shredder := shredder self; nobj := nobj self;
     ngauss := ngauss self; ngauss_per := ngauss_per self;
     ngauss_convolved := ngauss_convolved self;
     ngauss_per_convolved := ngauss_per_convolved self;
     model_images := model_images self; mbobs := mb |}.

Inductive optype : Type := Add | Subtract.

(** The loop of [_add_or_subtract_model_image] over
    [zip(mbobs, model_images)].  The images are changed in place, so the
    bands before one that raises stay changed. *)
Fixpoint update_bands (index : Z) (type : optype) (mb : MultiBandObsList)
  (models : list (list Image)) : MultiBandObsList * Result unit :=
  match mb, models with
  | obslist :: mb', band_model_images :: models' =>
      match obslist with
      | [] => (mb, raise IndexError)
      | obs :: others =>
          match py_index band_model_images index with
          | inl e => (mb, inl e)
          | inr model_image =>
              let obs' :=
                set_image obs
                  match type with
                  | Add => add (image obs) model_image
                  | Subtract => sub (image obs) model_image
                  end in
              let '(mb'', r) := update_bands index type mb' models' in
              ((obs' :: others) :: mb'', r)
          end
      end
  | _, _ => (mb, ok tt)
  end.

Definition _add_or_subtract_model_image (index : Z) (type : optype)
  : M ModelSubtractor unit :=
  fun self =>
    let '(mb, r) := update_bands index type (mbobs self) (model_images self) in
    (set_mbobs mb self, r).

(** [with subtractor.add_source(index) as mbobs: body]. *)
Definition add_source {A : Type} (index : Z)
  (body : MultiBandObsList -> M ModelSubtractor A) : M ModelSubtractor A :=
  (self <- get ;;
   let imax := nobj self - 1 in
   if (index <? 0) || (index >? imax) then throw IndexError
   else
     _add_or_subtract_model_image index Add ;;;
     try_finally
       (self1 <- get ;; body (mbobs self1))
       (_add_or_subtract_model_image index Subtract))%monad.

Definition get_object_gmix (self : ModelSubtractor) (index band : Z)
  : Result GMix :=
  (gmdata <- get_object_gmix_data (shredder self) (ngauss_per self) index band ;;
   fill_gmix (ngauss_per self) gmdata)%result.

Definition get_object_gmix_convolved (self : ModelSubtractor) (index band : Z)
  : Result GMix :=
  (gmdata <- get_object_gmix_data_convolved (shredder self)
               (ngauss_per_convolved self) index band ;;
   fill_gmix (ngauss_per_convolved self) gmdata)%result.

Definition get_object_mbobs (self : ModelSubtractor) (index stamp_size : Z)
  : Result MultiBandObsList :=
  (gm <- get_object_gmix self index 0 ;;
   let '(v_orig, u_orig) := gmix_get_cen gm in
   obslist0 <- py_index (sh_mbobs (shredder self)) 0 ;;
   obs0_orig <- py_index obslist0 0 ;;
   let jac := jacobian obs0_orig in
   let '(row_orig, col_orig) := get_rowcol jac v_orig u_orig in
   bbox <- _get_bbox (shape2 (image obs0_orig)) row_orig col_orig stamp_size ;;
   let '(row_start, row_end, col_start, col_end) := bbox in
   let jac' := set_cen jac (row_orig - float_of_Z row_start)%float
                           (col_orig - float_of_Z col_start)%float in
   mapM
     (fun obslist : ObsList =>
        obs_orig <- py_index obslist 0 ;;
        ok [ {| image := slice2 (image obs_orig)
                           row_start row_end col_start col_end;
                weight := slice2 (weight obs_orig)
                            row_start row_end col_start col_end;
                jacobian := jac';
                psf := psf obs_orig |} ])
     (mbobs self))%result.

(** *** Vocabulary of the statements about the subtractor *)

Inductive Forall3 {A B C : Type} (R : A -> B -> C -> Prop)
  : list A -> list B -> list C -> Prop :=
| Forall3_nil : Forall3 R [] [] []
| Forall3_cons : forall a b c la lb lc,
    R a b c -> Forall3 R la lb lc ->
    Forall3 R (a :: la) (b :: lb) (c :: lc).

(** Adding [m] after subtracting it gives back every pixel, along the whole
    chain of subtractions. *)
Fixpoint exact_chain (im : Image) (models : list Image) : Prop :=
  match models with
  | [] => True
  | m :: models' =>
      add (sub im m) m = im /\ exact_chain (sub im m) models'
  end.

(** The state every method of a constructed subtractor keeps: each band has
    its observation and [nobj] model images. *)
Definition wf (self : ModelSubtractor) : Prop :=
  Forall2 (fun (obslist : ObsList) (band_model_images : list Image) =>
             obslist <> [] /\
             length band_model_images = Z.to_nat (nobj self))
          (mbobs self) (model_images self).

(** The arithmetic of [_add_or_subtract_model_image]. *)
Definition optype_op (type : optype) : Image -> Image -> Image :=
  match type with
  | Add => add
  | Subtract => sub
  end.

(** The model images of one band: the image of object [iobj], for [iobj]
    from [0] to [n - 1] in this order, is rendered over the pixel grid of
    [obs] from the object's slice of the band's convolved mixture. *)
Definition rendered_models (sh : ShredderView) (n per band : Z)
  (obs : Observation) (band_model_images : list Image) : Prop :=
  Forall2 (fun iobj model_image =>
             exists gm,
               get_object_gmix_data_convolved sh per iobj band = ok gm /\
               model_image = render_model gm obs)
          (range n) band_model_images.

(** One band of a constructed subtractor, [bo] being the band's index and
    its observations: [n] model images over the band's pixel grid, one per
    object and rendered from that object's [per] convolved Gaussians, and
    one observation that is the original with the model images subtracted
    from its image one after another. *)
Definition subtracted_band (sh : ShredderView) (n per : Z)
  (bo : Z * ObsList) (band_model_images : list Image)
  (sub_obslist : ObsList) : Prop :=
  exists obs others diff_obs,
    snd bo = obs :: others /\
    sub_obslist = [diff_obs] /\
    length band_model_images = Z.to_nat n /\
    rendered_models sh n per (fst bo) obs band_model_images /\
    Forall (fun m => shape m = shape (image obs)) band_model_images /\
    image diff_obs = fold_left sub band_model_images (image obs) /\
    weight diff_obs = weight obs /\
    jacobian diff_obs = jacobian obs /\
    psf diff_obs = psf obs /\
    (exact_chain (image obs) band_model_images ->
     fold_left add (rev band_model_images) (image diff_obs) = image obs).

(** One band after the model image of [index] has been combined into its
    image by [op]. *)
Definition band_shifted (op : Image -> Image -> Image) (index : Z)
  (before : ObsList) (band_model_images : list Image) (after : ObsList)
  : Prop :=
  exists obs others m,
    before = obs :: others /\
    py_index band_model_images index = ok m /\
    after = set_image obs (op (image obs) m) :: others.

(** One band after the scope of [add_source] has closed. *)
Definition band_after (index : Z) (before : ObsList)
  (band_model_images : list Image) (after : ObsList) : Prop :=
  band_shifted (fun im m => sub (add im m) m) index
    before band_model_images after.

(** Adding and then subtracting the model image of [index] is exact in
    every band. *)
Definition exact_restore (index : Z) (self : ModelSubtractor) : Prop :=
  Forall2 (fun (obslist : ObsList) (band_model_images : list Image) =>
             forall obs others m,
               obslist = obs :: others ->
               py_index band_model_images index = ok m ->
               sub (add (image obs) m) m = image obs)
          (mbobs self) (model_images self).

End ModelSubtractor.

End Subtractor.

(** ** guesses.py *)

Module Guesses.

Import Np Ngmix.
Import String.StringSyntax.

(** The model names that pick a parameter layout of their own. *)
Local Open Scope string_scope.
Definition bdf : String.string := "bdf".
Definition bd : String.string := "bd".
Local Close Scope string_scope.

(** A row of the object catalogue.  A catalogue has either the fields
    [row], [col], [T] or the fields [x], [y], [x2], [y2]. *)
Record ObjT : Type := mk_objT {
  cat_row : float;
  cat_col : float;
  cat_T : float
}.

Record ObjXY : Type := mk_objXY {
  cat_x : float;
  cat_y : float;
  cat_x2 : float;
  cat_y2 : float
}.

Inductive Catalog : Type :=
| WithT (objs : list ObjT)
| WithMoments (objs : list ObjXY).

(** [objs.size] *)
Definition cat_size (objs : Catalog) : Z :=
  match objs with
  | WithT l => Z.of_nat (length l)
  | WithMoments l => Z.of_nat (length l)
  end.

Section GetGuessFromCat.

(** [x ** y] on floats: the C library's [pow]. *)
Variable float_pow : float -> float -> float.

(** [Tguess], [row] and [col] of every object, in catalogue order. *)
Definition guess_pos (pixel_scale : float) (objs : Catalog)
  : list (float * float * float) :=
  match objs with
  | WithT l =>
      map (fun o => (cat_T o,
                     (cat_row o * pixel_scale)%float,
                     (cat_col o * pixel_scale)%float)) l
  | WithMoments l =>
      map (fun o => (((cat_x2 o + cat_y2 o) * float_pow pixel_scale 2)%float,
                     (cat_y o * pixel_scale)%float,
                     (cat_x o * pixel_scale)%float)) l
  end.

(** [rng.uniform] (or [np.random.uniform]) for one draw and for
    [size=2]. *)
Variable RandomState : Type.
Variable uniform : RandomState -> float -> float -> float * RandomState.
Variable uniform2 :
  RandomState -> float -> float -> (float * float) * RandomState.

(** The mixture data of [ngmix.GMixBDF(pars=pars)] and of
    [ngmix.GMixModel(pars, model)]. *)
Variable GMixBDF : list float -> GMix.
Variable GMixModel : list float -> String.string -> GMix.

(** [gm.get_full_pars()] and [ngmix.GMix(pars=pars)]. *)
Variable get_full_pars : GMix -> list float.
Variable GMix_of_pars : list float -> GMix.

(** The model mixture of one object: the draws for the shape, the
    parameter list and the constructor depend on the model name. *)
Definition object_model (model : String.string) (nobj : Z)
  (pos : float * float * float) (rng : RandomState) : GMix * RandomState :=
  let '(Tguess, row0, col0) := pos in
  let '((g1, g2), rng1) := uniform2 rng (-0.01)%float 0.01%float in
  if String.eqb model bdf then
    let '(fracdev, rng2) := uniform rng1 0.45%float 0.55%float in
    (GMixBDF [row0; col0; g1; g2; Tguess; fracdev;
              (1.0 / float_of_Z nobj)%float], rng2)
  else if String.eqb model bd then
    let '(fracdev, rng2) := uniform rng1 0.45%float 0.55%float in
    let '(logTratio, rng3) := uniform rng2 (-0.01)%float 0.01%float in
    (GMixModel [row0; col0; g1; g2; Tguess; logTratio; fracdev;
                (1.0 / float_of_Z nobj)%float] model, rng3)
  else
    (GMixModel [row0; col0; g1; g2; Tguess;
                (1.0 / float_of_Z nobj)%float] model, rng1).

(** The body of [for j in range(data.size)]: one Gaussian perturbed by six
    draws. *)
Definition perturb_gauss (pixel_scale : float) (g : Gauss)
  (rng : RandomState) : Gauss * RandomState :=
  let '(d1, rng1) := uniform rng (-0.05)%float 0.05%float in
  let fac := 0.01%float in
  let '(d2, rng2) := uniform rng1 (- fac * pixel_scale)%float
                       (fac * pixel_scale)%float in
  let '(d3, rng3) := uniform rng2 (- fac * pixel_scale)%float
                       (fac * pixel_scale)%float in
  let '(d4, rng4) := uniform rng3 (-0.05)%float 0.05%float in
  let '(d5, rng5) := uniform rng4 (-0.05)%float 0.05%float in
  let '(d6, rng6) := uniform rng5 (-0.05)%float 0.05%float in
  ({| p := (p g * (1 + d1))%float;
      row := (row g + d2)%float;
      col := (col g + d3)%float;
      irr := (irr g * (1 + d4))%float;
      irc := (irc g * (1 + d5))%float;
      icc := (icc g * (1 + d6))%float |}, rng6).

Fixpoint perturb_data (pixel_scale : float) (data : GMix)
  (rng : RandomState) : GMix * RandomState :=
  match data with
  | [] => ([], rng)
  | g :: data' =>
      let '(g', rng1) := perturb_gauss pixel_scale g rng in
      let '(rest, rng2) := perturb_data pixel_scale data' rng1 in
      (g' :: rest, rng2)
  end.

(** The loop over the objects: [guess_pars] grows by the full parameters
    of every perturbed model mixture. *)
Fixpoint objects_loop (pixel_scale : float) (model : String.string)
  (nobj : Z) (positions : list (float * float * float))
  (guess_pars : list float) (rng : RandomState)
  : list float * RandomState :=
  match positions with
  | [] => (guess_pars, rng)
  | pos :: positions' =>
      let '(gm_model, rng1) := object_model model nobj pos rng in
      let '(data, rng2) := perturb_data pixel_scale gm_model rng1 in
      objects_loop pixel_scale model nobj positions'
        (guess_pars ++ get_full_pars data) rng2
  end.

Definition get_guess_from_cat (objs : Catalog) (pixel_scale : float)
  (model : String.string) (rng : RandomState) : GMix * RandomState :=
  let nobj := cat_size objs in
  let '(guess_pars, rng') :=
    objects_loop pixel_scale model nobj (guess_pos pixel_scale objs) [] rng in
  (GMix_of_pars guess_pars, rng').

(** The guess of one object: its model mixture, perturbed. *)
Definition object_guess (pixel_scale : float) (model : String.string)
  (nobj : Z) (pos : float * float * float) (part : GMix) : Prop :=
  exists rng,
    part = fst (perturb_data pixel_scale
                  (fst (object_model model nobj pos rng))
                  (snd (object_model model nobj pos rng))).

End GetGuessFromCat.

(** ngmix's layout of the full parameters: six numbers per Gaussian. *)
Definition full_pars (gm : GMix) : list float :=
  concat (map (fun g => [p g; row g; col g; irr g; irc g; icc g]) gm).

Fixpoint of_full_pars_fuel (fuel : nat) (pars : list float) : GMix :=
  match fuel, pars with
  | S fuel', a :: b :: c :: d :: e :: f :: pars' =>
      {| p := a; row := b; col := c; irr := d; irc := e; icc := f |}
        :: of_full_pars_fuel fuel' pars'
  | _, _ => []
  end.

Definition of_full_pars (pars : list float) : GMix :=
  of_full_pars_fuel (length pars) pars.

End Guesses.

(** ** A small instance of what the program takes from outside

    Used to run the model on concrete inputs. *)

Module Example.

Import Np Ngmix.

(** [ngmix.em.EM_MAXITER] is [2**1]; the two [procflags] bits are sample
    values. *)
Definition EM_MAXITER : Z := 2.
Definition COADD_FAILURE : Z := 1.
Definition BAND_FAILURE : Z := 2.

Definition prep_image (im : Image) : Image * float := (im, 0%float).

Definition unit_jacobian : Jacobian :=
  {| row0 := 0; col0 := 0; dvdrow := 1; dvdcol := 0; dudrow := 0; dudcol := 1;
     scale := 1 |}.

(** One band of two pixels with unit weights. *)
Definition obs12 : Observation :=
  {| image := [[1; 2]]%float; weight := [[1; 1]]%float;
     jacobian := unit_jacobian; psf := None |}.

Definition make_coadd_obs (mb : MultiBandObsList) : Observation :=
  match mb with
  | (obs :: _) :: _ => obs
  | _ => obs12
  end.

(** A fitter that reports the flags [fl] and returns its guess. *)
Definition fitter (fl : Z) (_ : Observation) (miniter _ : Z) (_ : float)
  (gmix_guess : GMix) (sky0 : float) : EM :=
  {| get_result := {| flags := fl; sky := sky0; numiter := miniter;
                      fdiff := 0; gmix := None;
                      total_flux := None; total_flux_err := None |};
     get_gmix := gmix_guess;
     get_convolved_gmix := gmix_guess |}.

(** A flat model image over a grid of one row and two columns. *)
Definition make_image (_ : GMix) (_ : Z * Z) (_ : Jacobian) : Image :=
  [[1; 1]]%float.

Definition set_flux (gm : GMix) (f : float) : GMix :=
  map (fun g => {| p := f; row := row g; col := col g;
                   irr := irr g; irc := irc g; icc := icc g |}) gm.

(** [pow] at the exponent 2: [pow(1.0, y)] is exactly [1.0], the one base
    the Jacobians of the instances below have; other bases are squared by a
    product. *)
Definition float_pow (x _ : float) : float :=
  if PrimFloat.eqb x 1 then 1%float else (x * x)%float.

(** A generator that always draws zero; its state counts the draws. *)
Definition uniform (n : nat) (_ _ : float) : float * nat := (0%float, S n).

Definition gauss1 : Gauss :=
  {| p := 1; row := 0; col := 0; irr := 1; irc := 0; icc := 1 |}.

Definition shredder2 : Shredding.Shredder nat :=
  Shredding.__init__ make_coadd_obs [[obs12]; [obs12]] 10 1000 0.001 0%nat.

(** [shred] with these parts, for a coadd fitter reporting flags [cfl] and a
    band fitter reporting flags [bfl]. *)
Definition shred (cfl bfl : Z) : GMix -> M (Shredding.Shredder nat) unit :=
  Shredding.shred seq_sum EM_MAXITER COADD_FAILURE BAND_FAILURE prep_image
    (fitter cfl) (fitter bfl) make_image set_flux float_pow uniform.

(** A renderer that paints every pixel with the amplitude of the first
    Gaussian of the mixture. *)
Definition render_pixel (gm : GMix) (_ : Z * Z) (_ : Jacobian) (_ _ : nat)
  : float :=
  match gm with
  | g :: _ => p g
  | [] => 0%float
  end.

(** The centre of a mixture is that of its first Gaussian, and the Jacobian
    maps sky offsets to pixels by a shift. *)
Definition gmix_get_cen (gm : GMix) : float * float :=
  match gm with
  | g :: _ => (row g, col g)
  | [] => (0%float, 0%float)
  end.

Definition get_rowcol (j : Jacobian) (v u : float) : float * float :=
  ((row0 j + v)%float, (col0 j + u)%float).

Definition gauss_at (amp r c : float) : Gauss :=
  {| p := amp; row := r; col := c; irr := 1; irc := 0; icc := 1 |}.

(** One band of one pixel of value [v]. *)
Definition obs_pixel (v : float) : Observation :=
  {| image := [[v]]; weight := [[1%float]];
     jacobian := unit_jacobian; psf := None |}.

(** Two objects of amplitudes 0.1 and 0.2, one Gaussian each, in that
    band. *)
Definition two_objects (v : float) : Subtractor.ShredderView :=
  {| Subtractor.sh_mbobs := [[obs_pixel v]];
     Subtractor.band_gmix := [[gauss_at 0.1 0 0; gauss_at 0.2 0 0]];
     Subtractor.band_gmix_convolved :=
       [[gauss_at 0.1 0 0; gauss_at 0.2 0 0]] |}.

(** The subtractor built from a view (an empty one if construction
    raises). *)
Definition built (sh : Subtractor.ShredderView) (n : Z)
  : Subtractor.ModelSubtractor :=
  match Subtractor.__init__ render_pixel sh n with
  | inr self => self
  | inl _ =>
      {| Subtractor.shredder := sh; Subtractor.nobj := n;
         Subtractor.ngauss := 0; Subtractor.ngauss_per := 0;
         Subtractor.ngauss_convolved := 0;
         Subtractor.ngauss_per_convolved := 0;
         Subtractor.model_images := []; Subtractor.mbobs := [] |}
  end.

(** One object of amplitude [amp] in one band of one pixel of value [v]. *)
Definition one_object (v amp : float) : Subtractor.ShredderView :=
  {| Subtractor.sh_mbobs := [[obs_pixel v]];
     Subtractor.band_gmix := [[gauss_at amp 0 0]];
     Subtractor.band_gmix_convolved := [[gauss_at amp 0 0]] |}.

(** Three Gaussians before the PSF and six after it, for two objects. *)
Definition three_and_six : Subtractor.ShredderView :=
  {| Subtractor.sh_mbobs := [[obs12]];
     Subtractor.band_gmix := [repeat gauss1 3];
     Subtractor.band_gmix_convolved := [repeat gauss1 6] |}.

(** One object centred on pixel (98, 98) of an image of 100 by 100
    pixels. *)
Definition obs100 : Observation :=
  {| image := repeat (repeat 1%float 100) 100;
     weight := repeat (repeat 1%float 100) 100;
     jacobian := unit_jacobian; psf := None |}.

Definition near_the_edge : Subtractor.ShredderView :=
  {| Subtractor.sh_mbobs := [[obs100]];
     Subtractor.band_gmix := [[gauss_at 1 98 98]];
     Subtractor.band_gmix_convolved := [[gauss_at 1 98 98]] |}.

End Example.

(** ** Further concrete inputs *)

Module MoreExamples.

Import Np Ngmix.

(** One object centred on pixel (10, 10) of an image of 20 by 20 pixels. *)
Definition obs20 : Observation :=
  {| image := repeat (repeat 1%float 20) 20;
     weight := repeat (repeat 1%float 20) 20;
     jacobian := Example.unit_jacobian; psf := None |}.

Definition in_the_middle : Subtractor.ShredderView :=
  {| Subtractor.sh_mbobs := [[obs20]];
     Subtractor.band_gmix := [[Example.gauss_at 1 10 10]];
     Subtractor.band_gmix_convolved := [[Example.gauss_at 1 10 10]] |}.

(** One band of two pixels whose weights are all zero. *)
Definition obs_masked : Observation :=
  {| image := [[1; 2]]%float; weight := [[0; 0]]%float;
     jacobian := Example.unit_jacobian; psf := None |}.

(** Two draws at once, both zero. *)
Definition uniform2 (n : nat) (_ _ : float) : (float * float) * nat :=
  ((0%float, 0%float), S (S n)).

(** A model of two Gaussians at the position given by the first two
    parameters, sharing the amplitude given by the last one. *)
Definition two_gaussians (pars : list float) : GMix :=
  let r := nth 0 pars 0%float in
  let c := nth 1 pars 0%float in
  let amp := last pars 0%float in
  [ {| p := (amp / 2)%float; row := r; col := c;
       irr := 1; irc := 0; icc := 1 |};
    {| p := (amp / 2)%float; row := r; col := c;
       irr := 4; irc := 0; icc := 4 |} ].

Definition GMixModel (pars : list float) (_ : String.string) : GMix :=
  two_gaussians pars.

(** A catalogue of three objects with [row], [col] and [T]. *)
Definition catalog3 : Guesses.Catalog :=
  Guesses.WithT
    [ {| Guesses.cat_row := 3; Guesses.cat_col := 4; Guesses.cat_T := 1 |};
      {| Guesses.cat_row := 7; Guesses.cat_col := 2; Guesses.cat_T := 2 |};
      {| Guesses.cat_row := 5; Guesses.cat_col := 9; Guesses.cat_T := 3 |} ].

End MoreExamples.

(** * Properties *)

(** ** get_flux *)

Module FluxFacts.

Import Np Flux.

(** A float below zero is not [>= 0.0]. *)
Lemma float_negative_not_nonneg (x : float) :
  PrimFloat.ltb x 0 = true -> PrimFloat.leb 0 x = false.
Proof.
  rewrite FloatAxioms.ltb_spec, FloatAxioms.leb_spec.
  change (Prim2SF 0) with (S754_zero false).
  destruct (Prim2SF x) as [s | s | | s m e]; cbn; try destruct s; congruence.
Qed.

Section FluxTheorems.

Variable ndsum : Image -> float.

(** The two passes of [get_flux] and the final error computation, as one
    case distinction on the weighted template energy. *)
Lemma get_flux_unfold (im wt template : Image) :
  get_flux ndsum im wt template =
  if PrimFloat.eqb (S_xx ndsum wt template) 0
  then ok (sentinel_flux, sentinel_err)
  else ok (fit_flux ndsum im wt template,
           if PrimFloat.leb 0 (err_arg ndsum im wt template)
           then PrimFloat.sqrt (err_arg ndsum im wt template)
           else sentinel_err).
Proof.
  unfold get_flux, err_arg, chi2_of, fit_flux, S_xy, S_xx, unit_template.
  set (t := scale template (1 / ndsum template)%float).
  set (sxx := ndsum (mul (mul t t) wt)).
  set (sxy := ndsum (mul (mul t im) wt)).
  cbn [for_each].
  unfold pass_body at 1.
  cbn [Z.eqb Pos.eqb rbind read_local msq_sum xcorr_sum chi2 flux flux_err
       model ok].
  fold t. fold sxx. fold sxy.
  destruct (PrimFloat.eqb sxx 0) eqn:E.
  - cbn [rbind read_local msq_sum ok flux flux_err]. rewrite E. reflexivity.
  - unfold pass_body.
    cbn [Z.eqb Pos.eqb rbind read_local msq_sum xcorr_sum chi2 flux flux_err
         model ok].
    rewrite E.
    set (arg := (_ / sxx / _)%float).
    destruct (PrimFloat.leb 0 arg); reflexivity.
Qed.

(** [get_flux] returns a pair on every input: no local is read before it is
    assigned. *)
Lemma get_flux_returns (im wt template : Image) :
  exists fe, get_flux ndsum im wt template = ok fe.
Proof.
  rewrite get_flux_unfold.
  destruct (PrimFloat.eqb _ 0); eexists; reflexivity.
Qed.

(** C7.  [get_flux] never raises.  When the weighted energy [S_xx] of the
    unit-sum template is nonzero it returns the flux [S_xy / S_xx]; its
    second output is [sqrt (chi2 / S_xx / (n_pixels - 1))] when that argument
    is [>= 0], and the sentinel [1e9] when the argument is negative. *)
Theorem get_flux_weighted_least_squares (im wt template : Image) :
  (exists fe, get_flux ndsum im wt template = ok fe) /\
  (PrimFloat.eqb (S_xx ndsum wt template) 0 = false ->
   exists err,
     get_flux ndsum im wt template = ok (fit_flux ndsum im wt template, err) /\
     fit_flux ndsum im wt template =
       (S_xy ndsum im wt template / S_xx ndsum wt template)%float /\
     (PrimFloat.leb 0 (err_arg ndsum im wt template) = true ->
      err = PrimFloat.sqrt (chi2_of ndsum im wt template
                            / S_xx ndsum wt template
                            / float_of_Z (size im - 1))) /\
     (PrimFloat.ltb (err_arg ndsum im wt template) 0 = true ->
      err = 1e9%float)).
Proof.
  split; [apply get_flux_returns |].
  intro Hxx. rewrite get_flux_unfold, Hxx.
  eexists. split; [reflexivity |]. split; [reflexivity |]. split.
  - intro Hge. now rewrite Hge.
  - intro Hlt. now rewrite (float_negative_not_nonneg Hlt).
Qed.

(** When the weighted template energy [S_xx] is zero, [get_flux] stops after
    the first pass and returns the sentinel pair [(-9999e9, 1e9)]. *)
Lemma get_flux_zero_energy_sentinel (im wt template : Image) :
  PrimFloat.eqb (S_xx ndsum wt template) 0 = true ->
  get_flux ndsum im wt template = ok ((-9999e9)%float, 1e9%float).
Proof.
  intro Hxx. now rewrite get_flux_unfold, Hxx.
Qed.

End FluxTheorems.

(** Data [[1, 2]], unit weights, flat template: flux 3, error 1. *)
Lemma get_flux_weighted_least_squares_witness :
  exists err,
    get_flux seq_sum [[1; 2]]%float [[1; 1]]%float [[1; 1]]%float
      = ok (3%float, err) /\
    err = 1%float.
Proof.
  destruct (proj2 (get_flux_weighted_least_squares seq_sum
                     [[1; 2]]%float [[1; 1]]%float [[1; 1]]%float) eq_refl)
    as [err [Hrun [_ [Hge _]]]].
  exists err. split; [exact Hrun | exact (Hge eq_refl)].
Defined.

(** All weights zero: [S_xx] is zero and the sentinel pair comes back. *)
Lemma get_flux_all_masked :
  get_flux seq_sum [[1; 2]]%float [[0; 0]]%float [[1; 1]]%float
    = ok ((-9999e9)%float, 1e9%float).
Proof.
  exact (get_flux_zero_energy_sentinel seq_sum
           [[1; 2]]%float [[0; 0]]%float [[1; 1]]%float eq_refl).
Defined.

(** C8.  For an all-zero template the normalisation [1.0 / model.sum()] is
    infinite and the normalised template is NaN, so [S_xx] is NaN and the
    test [msq_sum == 0] does not hold: [get_flux] returns the flux NaN, not
    the sentinel [-9999e9], with the sentinel error [1e9]. *)
Theorem get_flux_all_zero_template :
  let im := [[1; 2]]%float in
  let wt := [[1; 1]]%float in
  let template := zeros_like im in
  PrimFloat.eqb (S_xx seq_sum wt template) 0 = false /\
  get_flux seq_sum im wt template = ok (nan, 1e9%float) /\
  get_flux seq_sum im wt template <> ok ((-9999e9)%float, 1e9%float).
Proof.
  cbv zeta. split; [reflexivity |]. split; [reflexivity |].
  vm_compute. discriminate.
Qed.

End FluxFacts.

(** ** Shredder.shred *)

Module ShreddingFacts.

Import Np Ngmix Flux Shredding.

Section ShredTheorems.

Variable ndsum : Image -> float.
Variables EM_MAXITER COADD_FAILURE BAND_FAILURE : Z.
Variable prep_image : Image -> Image * float.
Variable GMixEMFixCen : Observation -> Z -> Z -> float -> GMix -> float -> EM.
Variable GMixEMPOnly : Observation -> Z -> Z -> float -> GMix -> float -> EM.
Variable make_image : GMix -> Z * Z -> Jacobian -> Image.
Variable set_flux : GMix -> float -> GMix.
Variable float_pow : float -> float -> float.
Variable RandomState : Type.
Variable uniform : RandomState -> float -> float -> float * RandomState.

Local Abbreviation Shredder := (Shredder RandomState).
Local Abbreviation cannot_proceed := (cannot_proceed EM_MAXITER).
Local Abbreviation _set_band_flux_and_gmix :=
  (_set_band_flux_and_gmix ndsum make_image set_flux float_pow).
Local Abbreviation band_loop :=
  (band_loop ndsum EM_MAXITER BAND_FAILURE prep_image GMixEMPOnly
             make_image set_flux float_pow uniform).
Local Abbreviation _do_multiband_fit :=
  (_do_multiband_fit ndsum EM_MAXITER BAND_FAILURE prep_image GMixEMPOnly
                     make_image set_flux float_pow uniform).
Local Abbreviation _do_coadd_fit := (_do_coadd_fit prep_image GMixEMFixCen).
Local Abbreviation shred :=
  (shred ndsum EM_MAXITER COADD_FAILURE BAND_FAILURE prep_image GMixEMFixCen
         GMixEMPOnly make_image set_flux float_pow uniform).
Local Abbreviation _get_band_fit := (_get_band_fit prep_image GMixEMPOnly uniform).
Local Abbreviation band_em := (band_em prep_image GMixEMPOnly uniform).
Local Abbreviation band_entry :=
  (band_entry ndsum EM_MAXITER prep_image GMixEMPOnly make_image set_flux
  float_pow
              uniform).
Local Abbreviation passes := (passes EM_MAXITER).
Local Abbreviation fails := (fails EM_MAXITER).
Local Abbreviation coadd_failed := (coadd_failed COADD_FAILURE).

Lemma cannot_proceed_iff (fl : Z) :
  cannot_proceed fl = true <-> fl <> 0 /\ Z.land fl EM_MAXITER = 0.
Proof.
  unfold Shredding.cannot_proceed.
  rewrite andb_true_iff, negb_true_iff, Z.eqb_neq, Z.eqb_eq. tauto.
Qed.

Lemma _get_band_fit_ready (obs : Observation) (s : Shredder)
  (r : ResultDict) (c : EMResult) (g : GMix) :
  _result s = Some r -> coadd_result r = Some c -> gmix c = Some g ->
  _get_band_fit obs s =
    (set_rng (snd (perturb uniform g (_rng s))) s,
     ok (band_em s c g (_rng s) obs)).
Proof.
  intros Hr Hc Hg.
  unfold Shredding._get_band_fit, Shredding._get_band_guess, band_em,
    bind, read_result, get, throw, modify, ret.
  rewrite Hr. cbn. rewrite Hc.
  destruct (prep_image (image obs)) as [imsky sk] eqn:Hp.
  cbn. rewrite Hr. cbn. rewrite Hc, Hg. cbn.
  destruct (perturb uniform g (_rng s)) as [gg rng'] eqn:Hq.
  cbn. reflexivity.
Qed.

Lemma update_result_ready (f : ResultDict -> ResultDict) (s : Shredder)
  (r : ResultDict) :
  _result s = Some r ->
  update_result f s = (set_result (Some (f r)) s, ok tt).
Proof.
  intro Hr. unfold update_result, bind, read_result, modify.
  now rewrite Hr.
Qed.

(** [_set_band_flux_and_gmix] fills in the mixture and the two flux keys and
    leaves the fitter's own keys as they are. *)
Lemma _set_band_flux_and_gmix_fields (obs : Observation) (em : EM)
  (bres : EMResult) :
  _set_band_flux_and_gmix obs em = ok bres ->
  exists flux0 flux_err0,
    get_flux ndsum (image obs) (weight obs)
      (make_image (get_convolved_gmix em) (shape2 (image obs)) (jacobian obs))
      = ok (flux0, flux_err0) /\
    total_flux bres = Some flux0 /\
    total_flux_err bres = Some flux0 /\
    gmix bres =
      Some (set_flux (get_gmix em)
              (flux0 * float_pow (scale (jacobian obs)) 2)%float) /\
    flags bres = flags (Ngmix.get_result em) /\
    sky bres = sky (Ngmix.get_result em).
Proof.
  unfold Shredding._set_band_flux_and_gmix, rbind.
  destruct (get_flux ndsum _ _ _) as [e | [flux0 flux_err0]]; [discriminate |].
  intro H. injection H as <-. exists flux0, flux_err0. cbn. tauto.
Qed.

Lemma band_em_same_config (s' s : Shredder) c g rng obs :
  same_config s' s -> band_em s' c g rng obs = band_em s c g rng obs.
Proof.
  intros (_ & _ & H1 & H2 & H3). unfold band_em. now rewrite H1, H2, H3.
Qed.

Lemma band_entry_same_config (s' s : Shredder) c g obslist bres :
  same_config s' s -> band_entry s' c g obslist bres ->
  band_entry s c g obslist bres.
Proof.
  intros Hs (obs & others & rng & Ho & H).
  exists obs, others, rng. split; [exact Ho |].
  cbv zeta in *. now rewrite <- (band_em_same_config c g rng obs Hs).
Qed.

(** The loop over the bands: one entry per band is appended, in band order;
    the aggregate flags change only by the bit [BAND_FAILURE], which is set
    exactly when an entry fails; the stored coadd result is not touched. *)
Lemma band_loop_spec (bands : MultiBandObsList) :
  forall (acc : list EMResult) (s : Shredder) (r : ResultDict)
         (c : EMResult) (g : GMix),
    _result s = Some r -> coadd_result r = Some c -> gmix c = Some g ->
    exists s' out r',
      band_loop bands acc s = (s', out) /\
      _result s' = Some r' /\
      coadd_result r' = Some c /\
      band_results r' = band_results r /\
      same_config s' s /\
      (res_flags r' = res_flags r \/
       res_flags r' = Z.lor (res_flags r) BAND_FAILURE) /\
      forall l, out = ok l ->
        exists brs,
          l = acc ++ brs /\
          Forall2 (band_entry s c g) bands brs /\
          (Forall passes brs -> res_flags r' = res_flags r) /\
          (Exists fails brs ->
           res_flags r' = Z.lor (res_flags r) BAND_FAILURE).
Proof.
  induction bands as [| obslist bands IH]; intros acc s r c g Hr Hc Hg.
  - exists s, (ok acc), r. cbn.
    repeat split; auto.
    intros l Hl. injection Hl as <-. exists []. rewrite app_nil_r.
    repeat split; auto. intro H. inversion H.
  - cbn [Shredding.band_loop].
    destruct obslist as [| obs others].
    + exists s, (raise IndexError), r. cbn.
      repeat split; auto. intros l Hl. discriminate.
    + unfold bind at 1. cbn [lift first_obs ok].
      unfold bind at 1. rewrite (_get_band_fit_ready obs s Hr Hc Hg).
      set (s1 := set_rng _ s).
      set (em := band_em s c g (_rng s) obs).
      assert (Hr1 : _result s1 = Some r) by exact Hr.
      assert (Hcfg1 : same_config s1 s) by (repeat split).
      unfold ok at 1. cbv beta iota.
      destruct (cannot_proceed (flags (Ngmix.get_result em))) eqn:Hgate.
      * unfold bind at 1. unfold bind at 1.
        rewrite (update_result_ready _ s1 Hr1). cbn [ret ok].
        set (s2 := set_result _ s1).
        destruct (IH (acc ++ [Ngmix.get_result em]) s2
                     (or_flags BAND_FAILURE r) c g)
          as (s' & out & r' & Hrun & Hr' & Hc' & Hb' & Hcfg' & Hfl & Hout);
          [reflexivity | exact Hc | exact Hg |].
        exists s', out, r'. split; [exact Hrun |].
        split; [exact Hr' |]. split; [exact Hc' |].
        split; [exact Hb' |].
        split; [destruct Hcfg' as (?&?&?&?&?); repeat split; assumption |].
        assert (Hset : res_flags r' = Z.lor (res_flags r) BAND_FAILURE).
        { cbn [or_flags res_flags] in Hfl. destruct Hfl as [-> | ->]; auto.
          rewrite <- Z.lor_assoc, Z.lor_diag. reflexivity. }
        split; [right; exact Hset |].
        intros l Hl. destruct (Hout l Hl) as (brs & -> & HF & _ & _).
        exists (Ngmix.get_result em :: brs).
        rewrite <- app_assoc. split; [reflexivity |]. split.
        { constructor.
          - exists obs, others, (_rng s). split; [reflexivity |].
            cbv zeta. fold em. now rewrite Hgate.
          - eapply Forall2_impl; [| exact HF].
            intros a b Hab.
            apply (band_entry_same_config (s' := s2));
              [repeat split | exact Hab]. }
        split; [| intros _; exact Hset].
        intro HP. inversion HP as [| ? ? Hhd _]; subst.
        unfold passes in Hhd. congruence.
      * unfold bind at 1. cbn [lift].
        destruct (_set_band_flux_and_gmix obs em) as [e | bres] eqn:Hset.
        { exists s1, (inl e), r. repeat split; auto. intros l Hl. discriminate. }
        destruct (IH (acc ++ [bres]) s1 r c g Hr1 Hc Hg)
          as (s' & out & r' & Hrun & Hr' & Hc' & Hb' & Hcfg' & Hfl & Hout).
        exists s', out, r'. split; [exact Hrun |].
        split; [exact Hr' |]. split; [exact Hc' |].
        split; [exact Hb' |].
        split; [destruct Hcfg' as (?&?&?&?&?); repeat split; assumption |].
        split; [exact Hfl |].
        intros l Hl. destruct (Hout l Hl) as (brs & -> & HF & HP & HE).
        exists (bres :: brs).
        rewrite <- app_assoc. split; [reflexivity |].
        assert (Hpass : passes bres).
        { destruct (_set_band_flux_and_gmix_fields _ _ Hset)
            as (? & ? & _ & _ & _ & _ & Hflags & _).
          unfold passes. now rewrite Hflags. }
        split.
        { constructor.
          - exists obs, others, (_rng s). split; [reflexivity |].
            cbv zeta. fold em. now rewrite Hgate.
          - eapply Forall2_impl; [| exact HF].
            intros a b Hab.
            apply (band_entry_same_config (s' := s1)); [exact Hcfg1 | exact Hab]. }
        split.
        { intro HP'. apply HP. now inversion HP'. }
        { intro HE'. apply HE. inversion HE' as [? ? Hhd | ]; subst; auto.
          unfold fails, passes in *. congruence. }
Qed.

Lemma shred_unfold (gmix_guess : GMix) (s : Shredder) :
  let em_coadd := _do_coadd_fit s gmix_guess in
  let cres := Ngmix.get_result em_coadd in
  shred gmix_guess s =
  if cannot_proceed (flags cres)
  then (coadd_failed s cres, ok tt)
  else _do_multiband_fit (refining s (set_gmix (get_gmix em_coadd) cres)).
Proof.
  cbv zeta. unfold Shredding.shred, bind, get, modify, update_result,
    read_result, bind, coadd_failed, refining.
  cbn [_result set_result ok].
  destruct (cannot_proceed _); reflexivity.
Qed.

Lemma _do_multiband_fit_spec (s : Shredder) (r : ResultDict) (c : EMResult)
  (g : GMix) :
  _result s = Some r -> coadd_result r = Some c -> gmix c = Some g ->
  exists s' out r',
    _do_multiband_fit s = (s', out) /\
    _result s' = Some r' /\
    coadd_result r' = Some c /\
    same_config s' s /\
    (res_flags r' = res_flags r \/
     res_flags r' = Z.lor (res_flags r) BAND_FAILURE) /\
    (out = ok tt ->
     exists brs,
       band_results r' = Some brs /\
       Forall2 (band_entry s c g) (mbobs s) brs /\
       (Forall passes brs -> res_flags r' = res_flags r) /\
       (Exists fails brs ->
        res_flags r' = Z.lor (res_flags r) BAND_FAILURE)) /\
    (out <> ok tt -> band_results r' = band_results r).
Proof.
  intros Hr Hc Hg.
  unfold Shredding._do_multiband_fit.
  unfold bind at 1, read_result. rewrite Hr.
  unfold bind at 1, get. unfold ok at 1 2. cbv beta iota.
  destruct (band_loop_spec (mbobs s) [] s Hr Hc Hg)
    as (s1 & out1 & r1 & Hrun & Hr1 & Hc1 & Hb1 & Hcfg1 & Hfl1 & Hout1).
  unfold bind at 1. rewrite Hrun.
  destruct out1 as [e | reslist].
  - exists s1, (inl e), r1. repeat split; try tauto; try apply Hcfg1.
    intro H; discriminate.
  - rewrite (update_result_ready _ s1 Hr1).
    exists (set_result (Some (set_band_results reslist r1)) s1), (ok tt),
      (set_band_results reslist r1).
    split; [reflexivity |]. split; [reflexivity |].
    split; [exact Hc1 |]. split; [exact Hcfg1 |]. split; [exact Hfl1 |].
    split; [| intro H; now elim H].
    intros _. destruct (Hout1 reslist eq_refl) as (brs & -> & HF & HP & HE).
    exists brs. repeat split; assumption.
Qed.

(** C1, as amended.  [shred] sets [COADD_FAILURE] and skips the per-band
    refinement exactly when the coadd fit's flags are nonzero and do not
    contain the max-iterations bit; otherwise, so when the flags are zero or
    contain that bit, it stores the coadd mixture in the coadd result and runs
    the refinement over every band. *)
Theorem shred_coadd_gate (gmix_guess : GMix) (s : Shredder) :
  let em_coadd := _do_coadd_fit s gmix_guess in
  let cres := Ngmix.get_result em_coadd in
  (cannot_proceed (flags cres) = true <->
   flags cres <> 0 /\ Z.land (flags cres) EM_MAXITER = 0) /\
  (cannot_proceed (flags cres) = true ->
   shred gmix_guess s =
     (set_result (Some {| res_flags := COADD_FAILURE;
                          coadd_result := Some cres;
                          band_results := None |}) s, ok tt)) /\
  (cannot_proceed (flags cres) = false ->
   let stored := set_gmix (get_gmix em_coadd) cres in
   shred gmix_guess s = _do_multiband_fit (refining s stored) /\
   exists s' out r',
     shred gmix_guess s = (s', out) /\
     _result s' = Some r' /\
     coadd_result r' = Some stored /\
     gmix stored = Some (get_gmix em_coadd) /\
     (out = ok tt ->
      exists brs,
        band_results r' = Some brs /\
        Forall2 (band_entry s stored (get_gmix em_coadd)) (mbobs s) brs)).
Proof.
  cbv zeta. split; [apply cannot_proceed_iff |].
  pose proof (shred_unfold gmix_guess s) as Hun. cbv zeta in Hun.
  split.
  - intro Hgate. rewrite Hun, Hgate. reflexivity.
  - intro Hgate. rewrite Hun, Hgate. split; [reflexivity |].
    destruct (@_do_multiband_fit_spec
                (refining s (set_gmix (get_gmix (_do_coadd_fit s gmix_guess))
                               (Ngmix.get_result (_do_coadd_fit s gmix_guess))))
                _ _ (get_gmix (_do_coadd_fit s gmix_guess))
                eq_refl eq_refl eq_refl)
      as (s' & out & r' & Hrun & Hr' & Hc' & Hcfg & _ & Hout & _).
    exists s', out, r'. split; [exact Hrun |]. split; [exact Hr' |].
    split; [exact Hc' |]. split; [reflexivity |].
    intro Hok. destruct (Hout Hok) as (brs & Hb & HF & _).
    exists brs. split; [exact Hb |].
    eapply Forall2_impl; [| exact HF].
    intros a b Hab. eapply band_entry_same_config; [| exact Hab].
    repeat split.
Qed.

(** C6.  When [COADD_FAILURE] and [BAND_FAILURE] are distinct bits, a run of
    [shred] that returns leaves [band_results] with one entry per band, in
    band order, if [COADD_FAILURE] is not set (a band whose fit failed
    contributes its raw result), and leaves [band_results] absent if
    [COADD_FAILURE] is set. *)
Theorem band_results_one_per_band (gmix_guess : GMix) (s s' : Shredder) :
  COADD_FAILURE <> 0 ->
  Z.land BAND_FAILURE COADD_FAILURE = 0 ->
  shred gmix_guess s = (s', ok tt) ->
  exists r,
    _result s' = Some r /\
    (Z.land (res_flags r) COADD_FAILURE = 0 ->
     exists c g brs,
       coadd_result r = Some c /\ gmix c = Some g /\
       band_results r = Some brs /\
       length brs = length (mbobs s) /\
       Forall2 (band_entry s c g) (mbobs s) brs) /\
    (Z.land (res_flags r) COADD_FAILURE <> 0 -> band_results r = None).
Proof.
  intros Hcf Hdisj Hrun.
  pose proof (shred_unfold gmix_guess s) as Hun. cbv zeta in Hun.
  rewrite Hun in Hrun. clear Hun.
  set (em := _do_coadd_fit s gmix_guess) in *.
  destruct (cannot_proceed (flags (Ngmix.get_result em))).
  - injection Hrun as <-. eexists. split; [reflexivity |].
    cbn [res_flags band_results]. split; [| reflexivity].
    rewrite Z.land_diag. intro H. contradiction.
  - destruct (@_do_multiband_fit_spec
                (refining s (set_gmix (get_gmix em) (Ngmix.get_result em)))
                _ _ (get_gmix em) eq_refl eq_refl eq_refl)
      as (s1 & out & r' & Hrun' & Hr' & Hc' & Hcfg & Hfl & Hout & _).
    rewrite Hrun in Hrun'. injection Hrun' as <- <-.
    exists r'. split; [exact Hr' |].
    destruct (Hout eq_refl) as (brs & Hb & HF & _).
    split.
    + intros _. exists (set_gmix (get_gmix em) (Ngmix.get_result em)),
        (get_gmix em), brs.
      split; [exact Hc' |]. split; [reflexivity |]. split; [exact Hb |].
      split; [symmetry; exact (Forall2_length HF) |].
      eapply Forall2_impl; [| exact HF].
      intros a b Hab. eapply band_entry_same_config; [| exact Hab].
      repeat split.
    + intro Hset. exfalso. apply Hset.
      cbn [res_flags] in Hfl. destruct Hfl as [-> | ->].
      * reflexivity.
      * cbn [Z.lor]. exact Hdisj.
Qed.

(** C10, as amended.  After [shred] the aggregate flags are [0],
    [COADD_FAILURE] or [BAND_FAILURE]: the coadd fit's own flags are
    compared with them, never merged into them.  When the coadd fit reports
    exactly the (nonzero) max-iterations flag, that flag is stored in the
    coadd result while the aggregate flags are [0] or [BAND_FAILURE]: [0]
    when no band fit failed, and [BAND_FAILURE] when one did. *)
Theorem aggregate_flags_exclude_coadd_flags (gmix_guess : GMix) (s : Shredder) :
  let cres := Ngmix.get_result (_do_coadd_fit s gmix_guess) in
  exists r,
    _result (fst (shred gmix_guess s)) = Some r /\
    (res_flags r = 0 \/ res_flags r = COADD_FAILURE \/
     res_flags r = BAND_FAILURE) /\
    (EM_MAXITER <> 0 -> flags cres = EM_MAXITER ->
     exists c,
       coadd_result r = Some c /\ flags c = EM_MAXITER /\ flags c <> 0 /\
       (res_flags r = 0 \/ res_flags r = BAND_FAILURE) /\
       (forall brs, band_results r = Some brs ->
                    Forall passes brs -> res_flags r = 0) /\
       (forall brs, band_results r = Some brs ->
                    Exists fails brs -> res_flags r = BAND_FAILURE)).
Proof.
  cbv zeta.
  pose proof (shred_unfold gmix_guess s) as Hun. cbv zeta in Hun.
  set (em := _do_coadd_fit s gmix_guess) in *.
  destruct (@_do_multiband_fit_spec
              (refining s (set_gmix (get_gmix em) (Ngmix.get_result em)))
              _ _ (get_gmix em) eq_refl eq_refl eq_refl)
    as (s1 & out & r' & Hrun' & Hr' & Hc' & Hcfg & Hfl & Hout & Hnot).
  cbn [res_flags band_results Z.lor] in Hfl, Hout, Hnot.
  destruct (cannot_proceed (flags (Ngmix.get_result em))) eqn:Hgate.
  - rewrite Hun. eexists. split; [reflexivity |]. cbn [res_flags].
    split; [tauto |].
    intros Hm Hfl'. exfalso.
    apply cannot_proceed_iff in Hgate. destruct Hgate as [_ Hland].
    rewrite Hfl', Z.land_diag in Hland. contradiction.
  - rewrite Hun, Hrun'. exists r'. split; [exact Hr' |].
    split; [tauto |].
    intros Hm Hfl'.
    exists (set_gmix (get_gmix em) (Ngmix.get_result em)).
    split; [exact Hc' |]. cbn [set_gmix flags].
    split; [exact Hfl' |]. split; [now rewrite Hfl' |].
    split; [exact Hfl |].
    split; intros brs Hb HP.
    + destruct out as [e | []].
      * rewrite Hnot in Hb; [discriminate | discriminate].
      * destruct (Hout eq_refl) as (brs' & Hb' & _ & HP' & _).
        rewrite Hb in Hb'. injection Hb' as <-. exact (HP' HP).
    + destruct out as [e | []].
      * rewrite Hnot in Hb; [discriminate | discriminate].
      * destruct (Hout eq_refl) as (brs' & Hb' & _ & _ & HE').
        rewrite Hb in Hb'. injection Hb' as <-. exact (HE' HP).
Qed.

End ShredTheorems.
End ShreddingFacts.

(** *** [shred] on concrete runs *)

Module ShredExamples.

Import Np Ngmix Flux Shredding ShreddingFacts.

(** A coadd fit that reports flag 1 (not the max-iterations bit 2) stops the
    run with [COADD_FAILURE]. *)
Lemma shred_coadd_gate_witness :
  Example.shred 1 0 [Example.gauss1] Example.shredder2 =
    (set_result (Some {| res_flags := Example.COADD_FAILURE;
                         coadd_result :=
                           Some (Ngmix.get_result
                                   (Example.fitter 1 Example.obs12 10 1000
                                      0.001%float [Example.gauss1] 0%float));
                         band_results := None |}) Example.shredder2,
     ok tt).
Proof.
  exact (proj1 (proj2 (@shred_coadd_gate seq_sum Example.EM_MAXITER
                         Example.COADD_FAILURE Example.BAND_FAILURE
                         Example.prep_image (Example.fitter 1)
                         (Example.fitter 0) Example.make_image
                         Example.set_flux Example.float_pow nat Example.uniform
                         [Example.gauss1] Example.shredder2))
               eq_refl).
Defined.

(** C1, counterexample.  With [EM_MAXITER = 2], coadd flags [3] are nonzero
    and are not solely the max-iterations flag, yet [shred] does not set
    [COADD_FAILURE] and refines both bands. *)
Lemma shred_mixed_flags_proceed :
  let s := Example.shredder2 in
  let out := Example.shred 3 0 [Example.gauss1] s in
  flags (Ngmix.get_result
           (_do_coadd_fit Example.prep_image (Example.fitter 3) s
              [Example.gauss1])) = 3 /\
  3 <> 0 /\ 3 <> Example.EM_MAXITER /\
  snd out = ok tt /\
  exists r brs,
    _result (fst out) = Some r /\
    res_flags r = 0 /\
    Z.land (res_flags r) Example.COADD_FAILURE = 0 /\
    band_results r = Some brs /\
    length brs = 2%nat.
Proof.
  cbv zeta. split; [reflexivity |]. split; [discriminate |].
  split; [discriminate |]. split; [reflexivity |].
  eexists. eexists. split; [vm_compute; reflexivity |].
  repeat split.
Qed.

(** A run whose second stage sees a failing band fit (flag 1) in each of the
    two bands still records two band results. *)
Lemma band_results_one_per_band_witness :
  exists r,
    _result (fst (Example.shred 2 1 [Example.gauss1] Example.shredder2))
      = Some r /\
    (Z.land (res_flags r) Example.COADD_FAILURE = 0 ->
     exists c g brs,
       coadd_result r = Some c /\ gmix c = Some g /\
       band_results r = Some brs /\
       length brs = length (mbobs Example.shredder2) /\
       Forall2 (band_entry seq_sum Example.EM_MAXITER Example.prep_image
                  (Example.fitter 1) Example.make_image Example.set_flux
                  Example.float_pow
                  Example.uniform Example.shredder2 c g)
               (mbobs Example.shredder2) brs) /\
    (Z.land (res_flags r) Example.COADD_FAILURE <> 0 -> band_results r = None).
Proof.
  refine (@band_results_one_per_band seq_sum Example.EM_MAXITER
            Example.COADD_FAILURE Example.BAND_FAILURE Example.prep_image
            (Example.fitter 2) (Example.fitter 1) Example.make_image
            Example.set_flux Example.float_pow nat Example.uniform
            [Example.gauss1]
            Example.shredder2 _ _ eq_refl eq_refl).
  discriminate.
Defined.

(** A coadd fit that stops on the iteration budget alone: the stored coadd
    flags are 2 and the aggregate flags are 0. *)
Lemma aggregate_flags_exclude_coadd_flags_witness :
  exists r c,
    _result (fst (Example.shred 2 0 [Example.gauss1] Example.shredder2))
      = Some r /\
    coadd_result r = Some c /\ flags c = 2 /\ res_flags r = 0.
Proof.
  destruct (@aggregate_flags_exclude_coadd_flags seq_sum Example.EM_MAXITER
              Example.COADD_FAILURE Example.BAND_FAILURE Example.prep_image
              (Example.fitter 2) (Example.fitter 0) Example.make_image
              Example.set_flux Example.float_pow nat Example.uniform
              [Example.gauss1]
              Example.shredder2)
    as (r & Hr & _ & Hsoft).
  destruct Hsoft as (c & Hc & Hfl & _ & _ & Hzero & _);
    [discriminate | reflexivity |].
  exists r, c. split; [exact Hr |]. split; [exact Hc |].
  split; [exact Hfl |].
  vm_compute in Hr. injection Hr as <-.
  eapply Hzero; [reflexivity |].
  repeat constructor.
Defined.

(** C10, counterexample.  The coadd fit stops on the iteration budget alone
    (its flags are [EM_MAXITER = 2]) and the fits of both bands fail with
    flag 1: the run returns, the stored coadd flags are [EM_MAXITER], and
    the aggregate flags are [BAND_FAILURE], not [0]. *)
Lemma maxiter_run_reports_band_failure :
  let s := Example.shredder2 in
  let out := Example.shred 2 1 [Example.gauss1] s in
  flags (Ngmix.get_result
           (_do_coadd_fit Example.prep_image (Example.fitter 2) s
              [Example.gauss1])) = Example.EM_MAXITER /\
  Example.EM_MAXITER <> 0 /\
  snd out = ok tt /\
  exists r c,
    _result (fst out) = Some r /\
    coadd_result r = Some c /\
    flags c = Example.EM_MAXITER /\
    res_flags r = Example.BAND_FAILURE /\
    res_flags r <> 0.
Proof.
  cbv zeta. split; [reflexivity |]. split; [discriminate |].
  split; [reflexivity |].
  eexists. eexists. split; [vm_compute; reflexivity |].
  split; [reflexivity |]. split; [reflexivity |]. split; [reflexivity |].
  cbn. discriminate.
Qed.

(** C2.  For the band [[1, 2]] with unit weights and a flat model image,
    [get_flux] returns the flux 3 and the uncertainty 1;
    [_set_band_flux_and_gmix] stores the flux 3 under [total_flux] and sets
    the mixture's flux to [3 * scale**2], but it stores the flux 3 again,
    not the uncertainty 1, under [total_flux_err]. *)
Theorem total_flux_err_holds_flux :
  let obs := Example.obs12 in
  let em := Example.fitter 0 obs 10 1000 0.001%float [Example.gauss1]
              0%float in
  get_flux seq_sum (image obs) (weight obs)
    (Example.make_image (get_convolved_gmix em) (shape2 (image obs))
       (jacobian obs))
    = ok (3%float, 1%float) /\
  exists bres,
    _set_band_flux_and_gmix seq_sum Example.make_image Example.set_flux
    Example.float_pow obs em
      = ok bres /\
    total_flux bres = Some 3%float /\
    gmix bres =
      Some (Example.set_flux (get_gmix em)
              (3 * Example.float_pow (scale (jacobian obs)) 2)%float) /\
    total_flux_err bres = Some 3%float /\
    total_flux_err bres <> Some 1%float.
Proof.
  cbv zeta. split; [reflexivity |].
  eexists. split; [vm_compute; reflexivity |].
  split; [reflexivity |]. split; [reflexivity |]. split; [reflexivity |].
  cbn. discriminate.
Qed.

End ShredExamples.

(** ** ModelSubtractor *)

Module SubtractorFacts.

Import Np Ngmix Subtractor.

(** *** Python indexing and loops *)

Lemma py_index_cons_0 {A : Type} (a : A) (l : list A) :
  py_index (a :: l) 0 = ok a.
Proof.
  unfold py_index. cbn [length Z.ltb Z.compare].
  replace (Z.of_nat (S (length l)) <=? 0) with false
    by (symmetry; apply Z.leb_gt; lia).
  reflexivity.
Qed.

Lemma py_index_0_inv {A : Type} (l : list A) (a : A) :
  py_index l 0 = ok a -> exists others, l = a :: others.
Proof.
  destruct l as [| b l]; [discriminate |].
  rewrite py_index_cons_0. intro H. injection H as ->. now exists l.
Qed.

Lemma py_index_in_range {A : Type} (l : list A) (i : Z) :
  0 <= i < Z.of_nat (length l) -> exists a, py_index l i = ok a.
Proof.
  intro Hi. unfold py_index. cbv zeta.
  assert (E1 : (i <? 0) = false) by (apply Z.ltb_ge; lia).
  assert (E2 : (Z.of_nat (length l) <=? i) = false) by (apply Z.leb_gt; lia).
  rewrite E1. cbv iota. rewrite E1, E2. cbn [orb].
  destruct (nth_error l (Z.to_nat i)) as [a |] eqn:E; [now exists a |].
  apply nth_error_None in E. lia.
Qed.

Lemma mapM_Forall2 {A B : Type} (f : A -> Result B) (l : list A) :
  forall bs, mapM f l = ok bs -> Forall2 (fun a b => f a = ok b) l bs.
Proof.
  induction l as [| a l IH]; intros bs H; cbn in H.
  - injection H as <-. constructor.
  - unfold rbind in H. destruct (f a) as [e | b] eqn:Ea; [discriminate |].
    destruct (mapM f l) as [e | bs'] eqn:El; [discriminate |].
    injection H as <-. constructor; [exact Ea | now apply IH].
Qed.

Lemma range_length (n : Z) : length (range n) = Z.to_nat n.
Proof. unfold range. now rewrite length_map, length_seq. Qed.

Lemma Forall2_enumerate_from {A B : Type} (R : Z * A -> B -> Prop)
  (l : list A) :
  forall k l',
    Forall2 R (enumerate_from k l) l' ->
    Forall2 (fun a b => exists band, R (band, a) b) l l'.
Proof.
  induction l as [| a l IH]; intros k l' H; cbn in H; inversion H; subst.
  - constructor.
  - constructor; [now exists k | eauto].
Qed.

Lemma Forall3_impl {A B C : Type} (P Q : A -> B -> C -> Prop)
  (la : list A) (lb : list B) (lc : list C) :
  (forall a b c, P a b c -> Q a b c) ->
  Forall3 P la lb lc -> Forall3 Q la lb lc.
Proof.
  intros HPQ H. induction H; constructor; auto.
Qed.

(** *** Images *)

Lemma mapi_from_length {A B : Type} (f : nat -> A -> B) (l : list A) :
  forall k, length (mapi_from f k l) = length l.
Proof. induction l as [| a l IH]; intro k; cbn; [| rewrite IH]; reflexivity. Qed.

Lemma mapi_from_rows_shape {A : Type} (g : nat -> nat -> A -> float)
  (a : list (list A)) :
  forall k,
    map (@length float)
        (mapi_from (fun r rowv => mapi_from (g r) 0%nat rowv) k a)
    = map (@length A) a.
Proof.
  induction a as [| rowv a IH]; intro k; cbn; [reflexivity |].
  now rewrite mapi_from_length, IH.
Qed.

Lemma zeros_like_shape (a : Image) : shape (zeros_like a) = shape a.
Proof.
  unfold shape, zeros_like. rewrite map_map.
  apply map_ext. intro rowv. apply length_map.
Qed.

Section SubtractorTheorems.

Variable render_pixel : GMix -> Z * Z -> Jacobian -> nat -> nat -> float.

Local Abbreviation render_model := (render_model render_pixel).
Local Abbreviation band_models := (band_models render_pixel).
Local Abbreviation _build_models := (_build_models render_pixel).
Local Abbreviation __init__ := (__init__ render_pixel).

(** A model image covers the pixel grid of the band it is rendered for. *)
Lemma render_model_shape (gm : GMix) (obs : Observation) :
  shape (render_model gm obs) = shape (image obs).
Proof.
  unfold Subtractor.render_model, shape.
  rewrite (mapi_from_rows_shape
             (fun r c _ => render_pixel gm (shape2 (image obs))
                             (jacobian obs) r c)).
  apply zeros_like_shape.
Qed.

Lemma band_models_spec (sh : ShredderView) (n per band : Z)
  (obs : Observation) (models : list Image) :
  band_models sh n per band obs = ok models ->
  length models = Z.to_nat n /\
  Forall (fun m => shape m = shape (image obs)) models.
Proof.
  intro H. apply mapM_Forall2 in H. split.
  - rewrite <- (Forall2_length H). apply range_length.
  - induction H as [| iobj m l l' Hm _ IH]; constructor; [| exact IH].
    unfold rbind in Hm.
    destruct (get_object_gmix_data_convolved sh per iobj band);
      [discriminate |].
    injection Hm as <-. apply render_model_shape.
Qed.

(** The subtracted observation differs from the original in its image
    only, from which the model images are subtracted one after another. *)
Lemma subtract_models_fields (models : list Image) :
  forall obs,
    image (subtract_models obs models) = fold_left sub models (image obs) /\
    weight (subtract_models obs models) = weight obs /\
    jacobian (subtract_models obs models) = jacobian obs /\
    psf (subtract_models obs models) = psf obs.
Proof.
  unfold subtract_models.
  induction models as [| m models IH]; intro obs; cbn [fold_left].
  - repeat split.
  - destruct (IH (set_image obs (sub (image obs) m))) as (Hi & Hw & Hj & Hp).
    now rewrite Hi, Hw, Hj, Hp.
Qed.

(** Adding the model images back in reverse order undoes an exact chain of
    subtractions. *)
Lemma exact_chain_add_back (models : list Image) :
  forall im,
    exact_chain im models ->
    fold_left add (rev models) (fold_left sub models im) = im.
Proof.
  induction models as [| m models IH]; intros im H; cbn in *.
  - reflexivity.
  - destruct H as [Hm Hrest].
    rewrite fold_left_app. cbn [fold_left].
    now rewrite (IH _ Hrest).
Qed.

Lemma _build_subtracted_mbobs_spec (mbobs_orig : MultiBandObsList) :
  forall models,
    Forall2 (fun (obslist : ObsList) (_ : list Image) =>
               exists obs, py_index obslist 0 = ok obs)
            mbobs_orig models ->
    exists sub_mbobs,
      _build_subtracted_mbobs mbobs_orig models = ok sub_mbobs /\
      Forall3 (fun obslist ms sub_obslist =>
                 exists obs others,
                   obslist = obs :: others /\
                   sub_obslist = [subtract_models obs ms])
              mbobs_orig models sub_mbobs.
Proof.
  induction mbobs_orig as [| obslist mbobs_orig IH]; intros models H;
    inversion H as [| ? ms ? models' [obs Hobs] Hrest]; subst.
  - exists []. split; [reflexivity | constructor].
  - destruct (IH _ Hrest) as (rest & Hrun & HF).
    exists ([subtract_models obs ms] :: rest).
    cbn [_build_subtracted_mbobs]. rewrite Hobs. cbn [rbind].
    rewrite Hrun. split; [reflexivity |].
    constructor; [| exact HF].
    destruct (py_index_0_inv _ Hobs) as [others ->]. now exists obs, others.
Qed.

(** What [__init__] builds. *)
Lemma __init___spec (sh : ShredderView) (n : Z) (self : ModelSubtractor) :
  __init__ sh n = ok self ->
  shredder self = sh /\ nobj self = n /\
  Forall3 (fun obslist ms sub_obslist =>
             exists obs others band,
               obslist = obs :: others /\
               band_models sh n (ngauss_per_convolved self) band obs = ok ms /\
               sub_obslist = [subtract_models obs ms])
          (sh_mbobs sh) (model_images self) (mbobs self).
Proof.
  unfold Subtractor.__init__, rbind.
  destruct (_set_ngauss_per sh n) as [e | [[[ng ngp] ngc] ngpc]];
    [discriminate |].
  destruct (_build_models sh n ngpc) as [e | models] eqn:Hm; [discriminate |].
  assert (HF : Forall2 (fun (obslist : ObsList) ms =>
                          exists band obs,
                            py_index obslist 0 = ok obs /\
                            band_models sh n ngpc band obs = ok ms)
                       (sh_mbobs sh) models).
  { unfold Subtractor._build_models in Hm. apply mapM_Forall2 in Hm.
    apply Forall2_enumerate_from in Hm.
    eapply Forall2_impl; [| exact Hm].
    intros obslist ms [band Hb]. cbn in Hb. unfold rbind in Hb.
    destruct (py_index obslist 0) as [e | obs] eqn:Ho; [discriminate |].
    now exists band, obs. }
  destruct (_build_subtracted_mbobs_spec (mbobs_orig := sh_mbobs sh)
              (models := models)) as (sub_mbobs & Hrun & HS).
  { eapply Forall2_impl; [| exact HF].
    intros obslist ms (band & obs & Ho & _). now exists obs. }
  rewrite Hrun. intro H. injection H as <-.
  cbn [shredder nobj model_images mbobs ngauss_per_convolved].
  split; [reflexivity |]. split; [reflexivity |].
  clear Hrun Hm. revert sub_mbobs HS.
  induction HF as [| obslist ms l l' (band & obs & Ho & Hb) _ IH];
    intros sub_mbobs HS; inversion HS as [| ? ? ? ? ? ? Hhd Htl]; subst;
    constructor.
  - destruct Hhd as (obs' & others & -> & ->).
    rewrite py_index_cons_0 in Ho. injection Ho as ->.
    now exists obs, others, band.
  - now apply IH.
Qed.

(** The two loops over the bands, with the bands' indices: band [band] gets
    the model images that [band_models] renders for it, and they are
    subtracted from its first observation. *)
Lemma _build_bands_spec (sh : ShredderView) (n per : Z)
  (l : MultiBandObsList) :
  forall k models sub_mbobs,
    mapM (fun bo : Z * ObsList =>
            let '(band, obslist) := bo in
            (obs <- py_index obslist 0 ;;
             band_models sh n per band obs)%result)
         (enumerate_from k l) = ok models ->
    _build_subtracted_mbobs l models = ok sub_mbobs ->
    Forall3 (fun (bo : Z * ObsList) ms sub_obslist =>
               exists obs others,
                 snd bo = obs :: others /\
                 band_models sh n per (fst bo) obs = ok ms /\
                 sub_obslist = [subtract_models obs ms])
            (enumerate_from k l) models sub_mbobs.
Proof.
  induction l as [| obslist l IH]; intros k models sub_mbobs Hm Hs;
    cbn [enumerate_from mapM] in Hm.
  - injection Hm as <-. cbn in Hs. injection Hs as <-. constructor.
  - unfold rbind at 1 in Hm.
    destruct (py_index obslist 0) as [e | obs] eqn:Ho; [discriminate |].
    unfold rbind at 1 in Hm.
    destruct (band_models sh n per k obs) as [e | ms] eqn:Hb;
      [discriminate |].
    unfold rbind in Hm.
    destruct (mapM _ (enumerate_from (k + 1) l)) as [e | models'] eqn:Hrest;
      [discriminate |].
    injection Hm as <-.
    cbn [_build_subtracted_mbobs] in Hs. rewrite Ho in Hs.
    unfold rbind in Hs.
    destruct (_build_subtracted_mbobs l models') as [e | rest] eqn:Hsub;
      [discriminate |].
    injection Hs as <-.
    constructor; [| exact (IH _ _ _ Hrest Hsub)].
    destruct (py_index_0_inv _ Ho) as [others ->].
    now exists obs, others.
Qed.

(** The images that [band_models] returns are the renderings of the
    objects' slices, in object order. *)
Lemma band_models_rendered (sh : ShredderView) (n per band : Z)
  (obs : Observation) (models : list Image) :
  band_models sh n per band obs = ok models ->
  rendered_models render_pixel sh n per band obs models.
Proof.
  intro H. apply mapM_Forall2 in H. unfold rendered_models.
  eapply Forall2_impl; [| exact H].
  intros iobj m Hm. cbn beta in Hm. unfold rbind in Hm.
  destruct (get_object_gmix_data_convolved sh per iobj band) as [e | gm];
    [discriminate |].
  injection Hm as <-. now exists gm.
Qed.

(** C9, as amended.  A constructed subtractor holds, for every band of the
    input and in the same order, [nobj] model images over the band's pixel
    grid and one observation.  The model image of object [i] is the
    rendering, over the band's grid and with the band's Jacobian, of the
    Gaussians [[per * i, per * (i + 1))] of the band's convolved mixture,
    [per] being the number of convolved Gaussians of band 0 divided by
    [nobj].  The observation's image is the original image with the model
    images subtracted one after another, in object order, and its weight
    map, Jacobian and PSF are those of the original.  Adding the model
    images back gives the original image whenever each subtraction is
    undone exactly by the matching addition; in binary64 arithmetic it does
    so only up to rounding. *)
Theorem subtracted_mbobs_spec (sh : ShredderView) (n : Z)
  (self : ModelSubtractor) :
  __init__ sh n = ok self ->
  exists gmc0,
    py_index (band_gmix_convolved sh) 0 = ok gmc0 /\
    ngauss_per_convolved self = Z.of_nat (length gmc0) / n /\
    Forall3 (subtracted_band render_pixel sh n (ngauss_per_convolved self))
            (enumerate (sh_mbobs sh)) (model_images self) (mbobs self).
Proof.
  unfold Subtractor.__init__, rbind.
  destruct (_set_ngauss_per sh n) as [e | [[[ng ngp] ngc] per]] eqn:Hng;
    [discriminate |].
  destruct (_build_models sh n per) as [e | models] eqn:Hm; [discriminate |].
  destruct (_build_subtracted_mbobs (sh_mbobs sh) models)
    as [e | sub_mbobs] eqn:Hs; [discriminate |].
  intro H. injection H as <-.
  cbn [ngauss_per_convolved model_images mbobs].
  assert (Hper : exists gmc0,
                   py_index (band_gmix_convolved sh) 0 = ok gmc0 /\
                   per = Z.of_nat (length gmc0) / n).
  { unfold _set_ngauss_per, rbind in Hng.
    destruct (py_index (band_gmix sh) 0) as [e | gm0]; [discriminate |].
    destruct (py_index (band_gmix_convolved sh) 0) as [e | gmc0];
      [discriminate |].
    destruct (n =? 0); [discriminate |].
    destruct (negb _); [discriminate |].
    injection Hng as _ _ _ <-. now exists gmc0. }
  destruct Hper as (gmc0 & Hgmc0 & Hper).
  exists gmc0. split; [exact Hgmc0 |]. split; [exact Hper |].
  clear Hng Hper.
  eapply Forall3_impl;
    [| exact (_build_bands_spec sh n per (sh_mbobs sh) 0 Hm Hs)].
  intros bo ms sub_obslist (obs & others & Hbo & Hms & ->).
  destruct (band_models_spec _ _ _ _ _ Hms) as [Hlen Hshape].
  destruct (subtract_models_fields ms obs) as (Hi & Hw & Hj & Hp).
  exists obs, others, (subtract_models obs ms).
  split; [exact Hbo |]. split; [reflexivity |]. split; [exact Hlen |].
  split; [exact (band_models_rendered _ _ _ _ _ Hms) |].
  repeat (split; [first [reflexivity | assumption] |]).
  intro Hex. rewrite Hi. now apply exact_chain_add_back.
Qed.

(** A constructed subtractor is well formed. *)
Lemma __init___wf (sh : ShredderView) (n : Z) (self : ModelSubtractor) :
  __init__ sh n = ok self -> wf self.
Proof.
  intro Hinit. destruct (__init___spec _ _ Hinit) as (_ & Hn & HF).
  unfold wf. rewrite Hn.
  induction HF as [| obslist ms sub_obslist la lb lc
                     (obs & others & band & -> & Hms & ->) _ IH];
    constructor; [| exact IH].
  split; [discriminate |].
  exact (proj1 (band_models_spec _ _ _ _ _ Hms)).
Qed.

End SubtractorTheorems.

(** *** add_source *)

Lemma update_bands_ok (index : Z) (type : optype) (mb : MultiBandObsList) :
  forall models,
    Forall2 (fun (obslist : ObsList) ms =>
               obslist <> [] /\ exists m, py_index ms index = ok m)
            mb models ->
    exists mb',
      update_bands index type mb models = (mb', ok tt) /\
      Forall3 (band_shifted (optype_op type) index) mb models mb'.
Proof.
  induction mb as [| obslist mb IH]; intros models H;
    inversion H as [| ? ms ? models' [Hne [m Hm]] Hrest]; subst.
  - exists []. split; [reflexivity | constructor].
  - destruct obslist as [| obs others]; [contradiction |].
    destruct (IH _ Hrest) as (mb' & Hrun & HF).
    cbn [update_bands]. rewrite Hm, Hrun.
    eexists. split; [reflexivity |].
    constructor; [| exact HF].
    exists obs, others, m. destruct type; repeat split; assumption.
Qed.

Lemma set_image_image (obs : Observation) : set_image obs (image obs) = obs.
Proof. now destruct obs. Qed.

Lemma set_mbobs_mbobs (self : ModelSubtractor) :
  set_mbobs (mbobs self) self = self.
Proof. now destruct self. Qed.

Lemma band_after_exact (index : Z) (mb : MultiBandObsList)
  (models : list (list Image)) (after : MultiBandObsList) :
  Forall3 (band_after index) mb models after ->
  Forall2 (fun (obslist : ObsList) (band_model_images : list Image) =>
             forall obs others m,
               obslist = obs :: others ->
               py_index band_model_images index = ok m ->
               sub (add (image obs) m) m = image obs)
          mb models ->
  after = mb.
Proof.
  induction 1 as [| b ms a lb lm la Hb _ IH]; intro Hex.
  - reflexivity.
  - inversion Hex as [| ? ? ? ? Hhd Htl]; subst.
    rewrite (IH Htl).
    destruct Hb as (obs & others & m & -> & Hm & ->).
    now rewrite (Hhd obs others m eq_refl Hm), set_image_image.
Qed.

(** C5, as amended.  For a well-formed subtractor, an index in [[0, nobj)]
    and a body that leaves the subtractor as it finds it: the body runs with
    the model image of that object added to every band's image; when the
    scope is left, whether the body returned or raised, every band's image
    is [(v + m) - m] for its value [v] before the scope and the object's
    model image [m], and the body's outcome is passed on.  The images are
    those before the scope whenever that addition and subtraction are exact;
    in binary64 arithmetic they agree only up to rounding. *)
Theorem add_source_restores {A : Type} (index : Z)
  (body : MultiBandObsList -> M ModelSubtractor A) (self : ModelSubtractor) :
  wf self ->
  0 <= index < nobj self ->
  (forall mb s1, fst (body mb s1) = s1) ->
  exists during after,
    Forall3 (band_shifted add index) (mbobs self) (model_images self) during /\
    Forall3 (band_after index) (mbobs self) (model_images self) after /\
    add_source index body self =
      (set_mbobs after self, snd (body during (set_mbobs during self))) /\
    (exact_restore index self ->
     after = mbobs self /\ fst (add_source index body self) = self).
Proof.
  intros Hwf Hidx Hframe.
  assert (Hpre : Forall2 (fun (obslist : ObsList) ms =>
                            obslist <> [] /\ exists m, py_index ms index = ok m)
                         (mbobs self) (model_images self)).
  { eapply Forall2_impl; [| exact Hwf].
    intros obslist ms [Hne Hlen]. split; [exact Hne |].
    apply py_index_in_range. rewrite Hlen. lia. }
  destruct (update_bands_ok index Add Hpre) as (during & Hadd & HFd).
  assert (Hpre' : Forall2 (fun (obslist : ObsList) ms =>
                             obslist <> [] /\
                             exists m, py_index ms index = ok m)
                          during (model_images self)).
  { clear Hadd. induction HFd as [| b ms d lb lm ld Hb _ IH].
    - constructor.
    - inversion Hpre as [| ? ? ? ? [_ Hm] Hrest]; subst.
      constructor; [| now apply IH].
      destruct Hb as (obs & others & m & _ & _ & ->).
      split; [discriminate | exact Hm]. }
  destruct (update_bands_ok index Subtract Hpre') as (after & Hsub & HFa).
  assert (HFafter : Forall3 (band_after index)
                            (mbobs self) (model_images self) after).
  { clear Hadd Hsub Hpre Hpre'. revert after HFa.
    induction HFd as [| b ms d lb lm ld Hb _ IH]; intros after HFa;
      inversion HFa as [| ? ? ? ? ? ? Ha Hrest]; subst; constructor;
      [| now apply IH].
    destruct Hb as (obs & others & m & -> & Hm & ->).
    destruct Ha as (obs' & others' & m' & Heq & Hm' & ->).
    injection Heq as <- <-. rewrite Hm in Hm'. injection Hm' as <-.
    exists obs, others, m. now destruct obs. }
  assert (Hrun : add_source index body self =
                 (set_mbobs after self,
                  snd (body during (set_mbobs during self)))).
  { unfold add_source, bind, get, throw, try_finally,
      _add_or_subtract_model_image.
    unfold ok at 1. cbv beta iota.
    replace ((index <? 0) || (index >? nobj self - 1)) with false
      by (symmetry; apply orb_false_iff; split;
          [apply Z.ltb_ge | rewrite Z.gtb_ltb; apply Z.ltb_ge]; lia).
    rewrite Hadd. unfold ok at 1 2. cbv beta iota.
    cbn [mbobs set_mbobs].
    pose proof (Hframe during (set_mbobs during self)) as Hf.
    destruct (body during (set_mbobs during self)) as [s1 r].
    cbn [fst snd] in *. subst s1. cbn [mbobs model_images set_mbobs].
    rewrite Hsub. reflexivity. }
  exists during, after. split; [exact HFd |]. split; [exact HFafter |].
  split; [exact Hrun |].
  intro Hex.
  pose proof (band_after_exact HFafter Hex) as Hsame.
  split; [exact Hsame |].
  rewrite Hrun. cbn [fst]. rewrite Hsame. apply set_mbobs_mbobs.
Qed.

(** *** Index ranges and windows *)

(** When [N] divides [G], the ranges [[i * (G / N), (i + 1) * (G / N))] for
    [i] in [[0, N)] are disjoint and cover [[0, G)]: every component index
    lies in the range of exactly one object. *)
Lemma object_index_ranges_partition (G N k : Z) :
  0 < N -> G mod N = 0 -> 0 <= k < G ->
  exists i,
    (0 <= i < N /\
     fst (get_object_index_range (G / N) i) <= k
       < snd (get_object_index_range (G / N) i)) /\
    forall j,
      0 <= j < N ->
      fst (get_object_index_range (G / N) j) <= k
        < snd (get_object_index_range (G / N) j) ->
      j = i.
Proof.
  intros HN Hmod Hk. unfold get_object_index_range. cbn [fst snd].
  assert (HG : G = N * (G / N)) by (apply Z.div_exact; lia).
  set (per := G / N) in *.
  assert (Hper : 0 < per) by nia.
  exists (k / per).
  assert (Hdiv : per * (k / per) <= k < per * (k / per + 1)).
  { pose proof (Z.mul_div_le k per Hper).
    pose proof (Z.mul_succ_div_gt k per Hper). lia. }
  split.
  - split; [| exact Hdiv]. split; [apply Z.div_pos; lia |].
    apply Z.div_lt_upper_bound; lia.
  - intros j Hj Hjk. nia.
Qed.

(** [_get_start_end] compares only the start of the window with the image
    bounds. *)
Lemma _get_start_end_accepts (image_dim cen rad : Z) :
  0 <= cen - rad <= image_dim ->
  _get_start_end image_dim cen rad = ok (cen - rad, cen + rad + 1).
Proof.
  intro H. unfold _get_start_end. cbv zeta.
  replace (cen - rad <? 0) with false by (symmetry; apply Z.ltb_ge; lia).
  replace (cen - rad >? image_dim) with false
    by (symmetry; rewrite Z.gtb_ltb; apply Z.ltb_ge; lia).
  reflexivity.
Qed.

Lemma _get_start_end_rejects (image_dim cen rad : Z) :
  cen - rad < 0 \/ image_dim < cen - rad ->
  _get_start_end image_dim cen rad = raise IndexError.
Proof.
  intro H. unfold _get_start_end. cbv zeta.
  destruct H as [H | H].
  - replace (cen - rad <? 0) with true by (symmetry; apply Z.ltb_lt; lia).
    reflexivity.
  - replace (cen - rad >? image_dim) with true
      by (symmetry; rewrite Z.gtb_ltb; apply Z.ltb_lt; lia).
    now rewrite orb_true_r.
Qed.

End SubtractorFacts.

(** *** The subtractor on concrete inputs *)

Module SubtractorExamples.

Import Np Ngmix Subtractor SubtractorFacts.

Local Abbreviation __init__ := (__init__ Example.render_pixel).

(** One band of one pixel of value 1.5 and one object of amplitude 0.5: the
    subtracted pixel is 1, and 1 + 0.5 - 0.5 is exact.  The body of the
    scope raises. *)
Lemma add_source_restores_witness :
  let self := Example.built (Example.one_object 1.5 0.5) 1 in
  __init__ (Example.one_object 1.5 0.5) 1 = ok self /\
  @add_source unit 0 (fun _ => throw (UserException 7)) self
    = (self, raise (UserException 7)).
Proof.
  cbv zeta. split; [reflexivity |].
  set (self := Example.built (Example.one_object 1.5 0.5) 1).
  destruct (@add_source_restores unit 0 (fun _ => throw (UserException 7)) self)
    as (during & after & Hd & _ & Hrun & Hex).
  - exact (__init___wf Example.render_pixel (Example.one_object 1.5 0.5) 1
             eq_refl).
  - change (nobj self) with 1. lia.
  - reflexivity.
  - destruct Hex as [Hafter _].
    + unfold exact_restore.
      replace (mbobs self) with [[Example.obs_pixel 1]]
        by (vm_compute; reflexivity).
      replace (model_images self) with [[[[0.5%float]]]]
        by (vm_compute; reflexivity).
      constructor; [| constructor]. intros obs others m Ho Hm.
      injection Ho as <- <-. vm_compute in Hm. injection Hm as <-.
      reflexivity.
    + rewrite Hrun, Hafter, set_mbobs_mbobs. reflexivity.
Defined.

(** C5, counterexample.  One pixel of value 0.5 with two objects of
    amplitudes 0.1 and 0.2: the subtracted pixel is 0.2; the scope of
    [add_source(0)] adds and subtracts 0.1 and leaves 0.20000000000000004. *)
Lemma add_source_rounds :
  let self := Example.built (Example.two_objects 0.5) 2 in
  __init__ (Example.two_objects 0.5) 2 = ok self /\
  0 <= 0 < nobj self /\
  map image (concat (mbobs self)) = [[[0.2%float]]] /\
  snd (@add_source unit 0 (fun _ => ret tt) self) = ok tt /\
  map image (concat (mbobs (fst (@add_source unit 0 (fun _ => ret tt) self))))
    = [[[0.20000000000000004%float]]] /\
  mbobs (fst (@add_source unit 0 (fun _ => ret tt) self)) <> mbobs self.
Proof.
  cbv zeta. split; [reflexivity |].
  split; [change (0 <= 0 < 2); lia |].
  split; [reflexivity |]. split; [reflexivity |]. split; [reflexivity |].
  vm_compute. discriminate.
Qed.

(** One pixel of value 1.5 and one object of amplitude 0.5: the subtracted
    pixel is 1. *)
Lemma subtracted_mbobs_spec_witness :
  exists gmc0,
    py_index (band_gmix_convolved (Example.one_object 1.5 0.5)) 0
      = ok gmc0 /\
    ngauss_per_convolved (Example.built (Example.one_object 1.5 0.5) 1)
      = Z.of_nat (length gmc0) / 1 /\
    Forall3 (subtracted_band Example.render_pixel
               (Example.one_object 1.5 0.5) 1
               (ngauss_per_convolved
                  (Example.built (Example.one_object 1.5 0.5) 1)))
            (enumerate (sh_mbobs (Example.one_object 1.5 0.5)))
            (model_images (Example.built (Example.one_object 1.5 0.5) 1))
            (mbobs (Example.built (Example.one_object 1.5 0.5) 1)).
Proof.
  exact (subtracted_mbobs_spec Example.render_pixel
           (Example.one_object 1.5 0.5) 1 eq_refl).
Defined.

(** C9, counterexample.  With one pixel of value 0.5 and two objects of
    amplitudes 0.1 and 0.2 the subtracted pixel is (0.5 - 0.1) - 0.2 = 0.2,
    while 0.5 minus the sum 0.1 + 0.2 is 0.19999999999999996.  With one
    pixel of value 0.1 and one object of amplitude 0.5, adding the model
    image back onto the subtracted image gives 0.09999999999999998, not
    0.1. *)
Lemma subtraction_rounds :
  (let orig := Example.obs_pixel 0.5 in
   let self := Example.built (Example.two_objects 0.5) 2 in
   __init__ (Example.two_objects 0.5) 2 = ok self /\
   model_images self = [[[[0.1%float]]; [[0.2%float]]]] /\
   map image (concat (mbobs self)) = [[[0.2%float]]] /\
   sub (image orig)
       (fold_left add (concat (model_images self)) (zeros_like (image orig)))
     = [[0.19999999999999996%float]] /\
   map image (concat (mbobs self)) <>
     [sub (image orig)
          (fold_left add (concat (model_images self))
             (zeros_like (image orig)))]) /\
  (let orig := Example.obs_pixel 0.1 in
   let self := Example.built (Example.one_object 0.1 0.5) 1 in
   __init__ (Example.one_object 0.1 0.5) 1 = ok self /\
   model_images self = [[[[0.5%float]]]] /\
   map (fun o => fold_left add (concat (model_images self)) (image o))
       (concat (mbobs self))
     = [[[0.09999999999999998%float]]] /\
   map (fun o => fold_left add (concat (model_images self)) (image o))
       (concat (mbobs self))
     <> [image orig]).
Proof.
  cbv zeta. split.
  - split; [reflexivity |]. split; [reflexivity |]. split; [reflexivity |].
    split; [reflexivity |]. vm_compute. discriminate.
  - split; [reflexivity |]. split; [reflexivity |]. split; [reflexivity |].
    vm_compute. discriminate.
Qed.

(** C3.  In an image of 100 by 100 pixels a window of radius 5 around pixel
    98 runs from 93 to 104, past the image's end, and is accepted: only the
    start of the window is compared with the bounds.  The stamp cut for
    [stamp_size = 11] around an object at (98, 98) has 7 by 7 pixels. *)
Theorem stamp_window_past_image_end :
  _get_start_end 100 98 5 = ok (93, 104) /\
  100 < 104 /\
  _get_bbox (100, 100) 98 98 11 = ok (93, 104, 93, 104) /\
  exists stamp,
    __init__ Example.near_the_edge 1
      = ok (Example.built Example.near_the_edge 1) /\
    get_object_mbobs Example.gmix_get_cen Example.get_rowcol
      (Example.built Example.near_the_edge 1) 0 11 = ok [[stamp]] /\
    shape2 (image stamp) = (7, 7) /\
    shape2 (weight stamp) = (7, 7).
Proof.
  split; [reflexivity |]. split; [lia |]. split; [reflexivity |].
  eexists. split; [vm_compute; reflexivity |].
  split; [vm_compute; reflexivity |].
  split; reflexivity.
Qed.

(** C4.  For two objects, a pre-PSF mixture of three Gaussians and a
    convolved mixture of six: three is not divisible by two, yet
    [_set_ngauss_per] and the whole construction succeed, with
    [ngauss_per = 1], and the third Gaussian lies in no object's range. *)
Theorem pre_psf_count_not_checked :
  let sh := Example.three_and_six in
  3 mod 2 <> 0 /\
  _set_ngauss_per sh 2 = ok (3, 1, 6, 3) /\
  __init__ sh 2 = ok (Example.built sh 2) /\
  ngauss (Example.built sh 2) = 3 /\
  ngauss_per (Example.built sh 2) = 1 /\
  get_object_index_range 1 0 = (0, 1) /\
  get_object_index_range 1 1 = (1, 2) /\
  forall i, 0 <= i < 2 ->
    ~ (fst (get_object_index_range 1 i) <= 2
       < snd (get_object_index_range 1 i)).
Proof.
  cbv zeta. split; [discriminate |]. split; [reflexivity |].
  split; [vm_compute; reflexivity |]. split; [reflexivity |].
  split; [reflexivity |]. split; [reflexivity |]. split; [reflexivity |].
  intros i Hi. unfold get_object_index_range. cbn [fst snd]. lia.
Qed.

End SubtractorExamples.

(** ** More on get_flux *)

Module FluxBounds.

Import Np Flux FluxFacts.

(** *** The square root of a float that is [>= 0] is [>= 0] *)

Lemma shr_1_nonneg (mrs : shr_record) :
  0 <= shr_m mrs -> 0 <= shr_m (shr_1 mrs).
Proof.
  destruct mrs as [m r s]. cbn [shr_m]. intro H.
  destruct m as [| q | q]; [cbn; lia | | lia].
  destruct q; cbn; lia.
Qed.

Lemma iter_shr_1_nonneg (n : positive) :
  forall mrs, 0 <= shr_m mrs -> 0 <= shr_m (iter_pos shr_1 n mrs).
Proof.
  induction n as [n IH | n IH |]; intros mrs H; cbn [iter_pos].
  - apply IH, IH, shr_1_nonneg, H.
  - apply IH, IH, H.
  - apply shr_1_nonneg, H.
Qed.

Lemma shr_fexp_nonneg (m e : Z) (l : location) :
  0 <= m -> 0 <= shr_m (fst (shr_fexp prec emax m e l)).
Proof.
  intro H. unfold shr_fexp, shr.
  assert (H0 : 0 <= shr_m (shr_record_of_loc m l))
    by (destruct l as [| []]; exact H).
  destruct (fexp prec emax (Zdigits2 m + e) - e); cbn [fst];
    [exact H0 | now apply iter_shr_1_nonneg | exact H0].
Qed.

Lemma round_nearest_even_nonneg (m : Z) (l : location) :
  0 <= m -> 0 <= round_nearest_even m l.
Proof.
  intro H. destruct l as [| []]; cbn; try lia.
  destruct (Z.even m); lia.
Qed.

Lemma binary_round_aux_nonneg (m e : Z) (l : location) :
  0 <= m ->
  SFleb (S754_zero false) (binary_round_aux prec emax false m e l) = true.
Proof.
  intro H. unfold binary_round_aux.
  pose proof (shr_fexp_nonneg e l H) as H1.
  destruct (shr_fexp prec emax m e l) as [mrs' e'].
  cbn [fst] in H1.
  pose proof (shr_fexp_nonneg e' loc_Exact
                (round_nearest_even_nonneg (loc_of_shr_record mrs') H1)) as H2.
  destruct (shr_fexp prec emax _ e' loc_Exact) as [mrs'' e''].
  cbn [fst] in H2.
  destruct (shr_m mrs'') as [| q | q]; [reflexivity | | lia].
  destruct (e'' <=? emax - prec); reflexivity.
Qed.

Lemma sqrt_nonneg (x : float) :
  PrimFloat.leb 0 x = true -> PrimFloat.leb 0 (PrimFloat.sqrt x) = true.
Proof.
  rewrite !FloatAxioms.leb_spec, FloatAxioms.sqrt_spec.
  change (Prim2SF 0) with (S754_zero false).
  destruct (Prim2SF x) as [s | s | | s m e]; cbn;
    try destruct s; try discriminate; try reflexivity.
  intros _.
  unfold SF64sqrt, SFsqrt.
  destruct (SFsqrt_core_binary prec emax (Z.pos m) e) as [[mz ez] lz] eqn:E.
  apply binary_round_aux_nonneg.
  unfold SFsqrt_core_binary in E.
  destruct (Z.sqrtrem _) as [q r] eqn:Eq in E.
  injection E as <- _ _.
  change q with (fst (q, r)). rewrite <- Eq, Z.sqrtrem_sqrt.
  apply Z.sqrt_nonneg.
Qed.

Section FluxBoundsTheorems.

Variable ndsum : Image -> float.

(** The error that [get_flux] returns is never NaN and never negative: it
    is the sentinel [1e9] or the square root of an argument that is
    [>= 0].  This holds also when the flux returned is NaN. *)
Theorem get_flux_err_nonneg (im wt template : Image) :
  exists flux0 err,
    get_flux ndsum im wt template = ok (flux0, err) /\
    PrimFloat.leb 0 err = true.
Proof.
  rewrite get_flux_unfold.
  destruct (PrimFloat.eqb _ 0).
  - do 2 eexists. split; reflexivity.
  - destruct (PrimFloat.leb 0 (err_arg ndsum im wt template)) eqn:E;
      do 2 eexists; (split; [reflexivity |]).
    + now apply sqrt_nonneg.
    + reflexivity.
Qed.

End FluxBoundsTheorems.

End FluxBounds.

(** ** More on the Shredder *)

Module ShreddingMore.

Import Np Ngmix Flux Shredding FluxFacts ShreddingFacts.

Section ShredMoreTheorems.

Variable ndsum : Image -> float.
Variables EM_MAXITER COADD_FAILURE BAND_FAILURE : Z.
Variable prep_image : Image -> Image * float.
Variable make_coadd_obs : MultiBandObsList -> Observation.
Variable GMixEMFixCen : Observation -> Z -> Z -> float -> GMix -> float -> EM.
Variable GMixEMPOnly : Observation -> Z -> Z -> float -> GMix -> float -> EM.
Variable make_image : GMix -> Z * Z -> Jacobian -> Image.
Variable set_flux : GMix -> float -> GMix.
Variable float_pow : float -> float -> float.
Variable RandomState : Type.
Variable uniform : RandomState -> float -> float -> float * RandomState.

Local Abbreviation Shredder := (Shredder RandomState).
Local Abbreviation cannot_proceed := (cannot_proceed EM_MAXITER).
Local Abbreviation _set_band_flux_and_gmix :=
  (_set_band_flux_and_gmix ndsum make_image set_flux float_pow).
Local Abbreviation band_loop :=
  (band_loop ndsum EM_MAXITER BAND_FAILURE prep_image GMixEMPOnly
             make_image set_flux float_pow uniform).
Local Abbreviation _do_multiband_fit :=
  (_do_multiband_fit ndsum EM_MAXITER BAND_FAILURE prep_image GMixEMPOnly
                     make_image set_flux float_pow uniform).
Local Abbreviation _do_coadd_fit := (_do_coadd_fit prep_image GMixEMFixCen).
Local Abbreviation shred :=
  (shred ndsum EM_MAXITER COADD_FAILURE BAND_FAILURE prep_image GMixEMFixCen
         GMixEMPOnly make_image set_flux float_pow uniform).
Local Abbreviation _get_band_fit :=
  (_get_band_fit prep_image GMixEMPOnly uniform).
Local Abbreviation _get_band_guess := (_get_band_guess uniform).
Local Abbreviation perturb := (perturb uniform).
Local Abbreviation draws := (draws uniform).
Local Abbreviation band_em := (band_em prep_image GMixEMPOnly uniform).
Local Abbreviation band_entry :=
  (band_entry ndsum EM_MAXITER prep_image GMixEMPOnly make_image set_flux
              float_pow uniform).
Local Abbreviation passes := (passes EM_MAXITER).
Local Abbreviation fails := (fails EM_MAXITER).
Local Abbreviation __init__ := (@__init__ make_coadd_obs RandomState).

(** [_set_band_flux_and_gmix] returns on every band and fit. *)
Lemma _set_band_flux_and_gmix_ok (obs : Observation) (em : EM) :
  exists bres, _set_band_flux_and_gmix obs em = ok bres.
Proof.
  unfold Shredding._set_band_flux_and_gmix, rbind.
  destruct (get_flux_returns ndsum (image obs) (weight obs)
              (make_image (get_convolved_gmix em) (shape2 (image obs))
                 (jacobian obs))) as [[flux0 flux_err0] ->].
  eexists. reflexivity.
Qed.

(** [_set_band_flux_and_gmix] never raises and sets no flag.  The result
    it returns keeps the fitter's flags, sky offset and diagnostics.  Under
    [total_flux], and again under [total_flux_err], it holds the flux of
    the band: the weighted least-squares amplitude [S_xy / S_xx] of the
    rendered convolved mixture in the band's image, or the sentinel
    [-9999e9] when the weighted energy [S_xx] of the rendering is zero, as
    for a band whose weights are all zero.  The fitted mixture is stored
    with its flux set to that value, the sentinel included, times
    [scale ** 2] for the Jacobian's scale. *)
Theorem _set_band_flux_and_gmix_returns (obs : Observation) (em : EM) :
  let bim :=
    make_image (get_convolved_gmix em) (shape2 (image obs)) (jacobian obs) in
  let flux0 :=
    if PrimFloat.eqb (S_xx ndsum (weight obs) bim) 0 then sentinel_flux
    else fit_flux ndsum (image obs) (weight obs) bim in
  exists bres,
    _set_band_flux_and_gmix obs em = ok bres /\
    total_flux bres = Some flux0 /\
    total_flux_err bres = Some flux0 /\
    gmix bres =
      Some (set_flux (get_gmix em)
              (flux0 * float_pow (scale (jacobian obs)) 2)%float) /\
    flags bres = flags (Ngmix.get_result em) /\
    sky bres = sky (Ngmix.get_result em) /\
    numiter bres = numiter (Ngmix.get_result em) /\
    fdiff bres = fdiff (Ngmix.get_result em).
Proof.
  cbv zeta. unfold Shredding._set_band_flux_and_gmix, rbind.
  rewrite get_flux_unfold.
  destruct (PrimFloat.eqb _ 0); eexists; (split; [reflexivity |]);
    cbn; repeat split.
Qed.

(** The loop of [_get_band_guess] draws once per Gaussian, in order, and
    scales the amplitude of Gaussian [i] by the draw of index [i]. *)
Lemma perturb_draws (g : GMix) :
  forall rng,
    perturb g rng
      = (zip_with scale_amplitude g (fst (draws (length g) rng)),
         snd (draws (length g) rng)) /\
    length (fst (draws (length g) rng)) = length g.
Proof.
  induction g as [| g0 g IH]; intro rng;
    cbn [Shredding.perturb Shredding.draws length].
  - split; reflexivity.
  - destruct (uniform rng (-0.01)%float 0.01%float) as [rnum rng1].
    destruct (IH rng1) as [Hp Hl]. rewrite Hp.
    destruct (draws (length g) rng1) as [rest rng2].
    cbn [fst snd zip_with length] in *. split; [reflexivity |].
    now rewrite Hl.
Qed.

(** The guess for a band is a perturbed copy of the stored coadd mixture.
    With [rnum_0, rnum_1, ...] the successive draws of
    [rng.uniform(low=-0.01, high=0.01)] from the shredder's generator, one
    per Gaussian, the guess has the Gaussians of the stored mixture in the
    same order, with centres and covariances unchanged and the amplitude of
    Gaussian [i] multiplied by [1.0 + rnum_i].  The generator is left in the
    state after these draws, and the result, with the mixture stored in the
    coadd result, is not changed. *)
Theorem _get_band_guess_keeps_shapes (s : Shredder) (r : ResultDict)
  (c : EMResult) (g : GMix) :
  _result s = Some r -> coadd_result r = Some c -> gmix c = Some g ->
  let rnums := fst (draws (length g) (_rng s)) in
  let rng' := snd (draws (length g) (_rng s)) in
  _get_band_guess s
    = (set_rng rng' s, ok (zip_with scale_amplitude g rnums)) /\
  length rnums = length g /\
  _result (set_rng rng' s) = Some r /\
  Forall2 (fun g0 g1 =>
             row g1 = row g0 /\ col g1 = col g0 /\
             irr g1 = irr g0 /\ irc g1 = irc g0 /\ icc g1 = icc g0)
          g (zip_with scale_amplitude g rnums).
Proof.
  intros Hr Hc Hg. cbv zeta.
  destruct (perturb_draws g (_rng s)) as [Hp Hl].
  split; [| split; [exact Hl | split; [exact Hr |]]].
  - unfold Shredding._get_band_guess, bind, read_result, get, throw, modify,
      ret.
    rewrite Hr. cbn. rewrite Hc, Hg. cbn.
    now rewrite Hp.
  - revert Hl. generalize (fst (draws (length g) (_rng s))). clear.
    induction g as [| g0 g IH]; intros [| rnum rnums] Hl;
      try discriminate; cbn [zip_with]; constructor.
    + cbn. repeat split.
    + apply IH. now injection Hl.
Qed.

(** One turn of the loop over the bands, for a band that holds an
    observation. *)
Lemma band_loop_step (obs : Observation) (others : list Observation)
  (bands : MultiBandObsList) (acc : list EMResult) (s : Shredder)
  (r : ResultDict) (c : EMResult) (g : GMix) :
  _result s = Some r -> coadd_result r = Some c -> gmix c = Some g ->
  exists bres s2 r2,
    band_loop ((obs :: others) :: bands) acc s
      = band_loop bands (acc ++ [bres]) s2 /\
    _result s2 = Some r2 /\ coadd_result r2 = Some c.
Proof.
  intros Hr Hc Hg. cbn [Shredding.band_loop].
  unfold bind at 1. cbn [lift first_obs ok].
  unfold bind at 1.
  rewrite (_get_band_fit_ready prep_image GMixEMPOnly uniform obs s Hr Hc Hg).
  set (s1 := set_rng _ s).
  set (em := Shredding.band_em _ _ _ _ _ _ _ _).
  assert (Hr1 : _result s1 = Some r) by exact Hr.
  unfold ok at 1. cbv beta iota.
  destruct (cannot_proceed (flags (Ngmix.get_result em))).
  - unfold bind at 1. unfold bind at 1.
    rewrite (update_result_ready _ s1 Hr1). cbn [ret ok].
    do 3 eexists. split; [reflexivity |]. split; [reflexivity | exact Hc].
  - unfold bind at 1. cbn [lift].
    destruct (_set_band_flux_and_gmix_ok obs em) as [bres ->].
    exists bres, s1, r. repeat split; assumption.
Qed.

(** The outcome of the loop over the bands: it returns when every band
    holds an observation and raises [IndexError] otherwise. *)
Lemma band_loop_outcome (bands : MultiBandObsList) :
  forall (acc : list EMResult) (s : Shredder) (r : ResultDict)
         (c : EMResult) (g : GMix),
    _result s = Some r -> coadd_result r = Some c -> gmix c = Some g ->
    (Forall (fun obslist : ObsList => obslist <> []) bands ->
     exists l, snd (band_loop bands acc s) = ok l) /\
    (Exists (fun obslist : ObsList => obslist = []) bands ->
     snd (band_loop bands acc s) = raise IndexError).
Proof.
  induction bands as [| obslist bands IH]; intros acc s r c g Hr Hc Hg.
  - split.
    + intros _. now exists acc.
    + intro H. inversion H.
  - destruct obslist as [| obs others].
    + split.
      * intro H. inversion H; subst. contradiction.
      * intros _. reflexivity.
    + destruct (band_loop_step obs others bands acc s Hr Hc Hg)
        as (bres & s2 & r2 & Heq & Hr2 & Hc2).
      destruct (IH (acc ++ [bres]) s2 r2 c g Hr2 Hc2 Hg) as [Hall Hex].
      unfold ObsList in *. rewrite Heq.
      split.
      * intro H. inversion H; subst. auto.
      * intro H. inversion H; subst; [discriminate | auto].
Qed.

Lemma _do_multiband_fit_outcome (s : Shredder) (r : ResultDict)
  (c : EMResult) (g : GMix) :
  _result s = Some r -> coadd_result r = Some c -> gmix c = Some g ->
  snd (_do_multiband_fit s) =
  match snd (band_loop (mbobs s) [] s) with
  | inl e => inl e
  | inr _ => ok tt
  end.
Proof.
  intros Hr Hc Hg.
  destruct (band_loop_spec ndsum EM_MAXITER BAND_FAILURE prep_image
              GMixEMFixCen GMixEMPOnly make_image set_flux float_pow uniform
              (mbobs s) [] s Hr Hc Hg)
    as (s1 & out1 & r1 & Hrun & Hr1 & _).
  unfold Shredding._do_multiband_fit.
  unfold bind at 1, read_result. rewrite Hr.
  unfold bind at 1, get. unfold ok at 1 2. cbv beta iota.
  unfold bind at 1. rewrite Hrun. cbn [snd].
  destruct out1 as [e | l]; [reflexivity |].
  now rewrite (update_result_ready _ s1 Hr1).
Qed.

(** [shred] returns when the coadd fit cannot proceed or every band holds
    an observation.  When the coadd fit can proceed and some band holds no
    observation, [shred] raises [IndexError] and leaves a result without
    [band_results]. *)
Theorem shred_returns_or_raises (gmix_guess : GMix) (s : Shredder) :
  let cres := Ngmix.get_result (_do_coadd_fit s gmix_guess) in
  (cannot_proceed (flags cres) = true \/
   Forall (fun obslist : ObsList => obslist <> []) (mbobs s) ->
   snd (shred gmix_guess s) = ok tt) /\
  (cannot_proceed (flags cres) = false ->
   Exists (fun obslist : ObsList => obslist = []) (mbobs s) ->
   snd (shred gmix_guess s) = raise IndexError /\
   exists r,
     _result (fst (shred gmix_guess s)) = Some r /\
     band_results r = None).
Proof.
  cbv zeta.
  pose proof (shred_unfold ndsum EM_MAXITER COADD_FAILURE BAND_FAILURE
                prep_image GMixEMFixCen GMixEMPOnly make_image set_flux
                float_pow
                uniform gmix_guess s) as Hun.
  cbv zeta in Hun.
  set (em := _do_coadd_fit s gmix_guess) in *.
  set (s0 := refining s (set_gmix (get_gmix em) (Ngmix.get_result em))) in *.
  destruct (band_loop_outcome (mbobs s0) [] s0
              (r := {| res_flags := 0;
                       coadd_result :=
                         Some (set_gmix (get_gmix em) (Ngmix.get_result em));
                       band_results := None |})
              eq_refl eq_refl eq_refl) as [Hall Hex].
  destruct (@_do_multiband_fit_spec ndsum EM_MAXITER BAND_FAILURE prep_image
              GMixEMFixCen GMixEMPOnly make_image set_flux float_pow
              RandomState uniform
              s0 _ _ (get_gmix em) eq_refl eq_refl eq_refl)
    as (s1 & out & r' & Hrun & Hr' & _ & _ & _ & _ & Hnot).
  assert (Hout : out =
                 match snd (band_loop (mbobs s0) [] s0) with
                 | inl e => inl e
                 | inr _ => ok tt
                 end).
  { rewrite <- (_do_multiband_fit_outcome s0 (g := get_gmix em)
                  eq_refl eq_refl eq_refl).
    now rewrite Hrun. }
  split.
  - intros [Hgate | Hne]; rewrite Hun.
    + now rewrite Hgate.
    + destruct (cannot_proceed _); [reflexivity |].
      rewrite Hrun. cbn [snd]. rewrite Hout.
      destruct (Hall Hne) as [l ->]. reflexivity.
  - intros Hgate Hempty. rewrite Hun, Hgate, Hrun. cbn [fst snd].
    assert (Hraise : out = raise IndexError)
      by (rewrite Hout, (Hex Hempty); reflexivity).
    split; [exact Hraise |].
    exists r'. split; [exact Hr' |].
    rewrite Hnot; [reflexivity |]. rewrite Hraise. discriminate.
Qed.

(** In a run of [shred] that refines the bands and returns, the aggregate
    flags are [BAND_FAILURE] when at least one band result has flags that
    stop the refinement (nonzero, without the max-iterations bit), however
    many do, and [0] when none has. *)
Theorem band_failure_flag (gmix_guess : GMix) (s s' : Shredder) :
  cannot_proceed
    (flags (Ngmix.get_result (_do_coadd_fit s gmix_guess))) = false ->
  shred gmix_guess s = (s', ok tt) ->
  exists r brs,
    _result s' = Some r /\
    band_results r = Some brs /\
    res_flags r =
      if existsb (fun b => cannot_proceed (flags b)) brs
      then BAND_FAILURE else 0.
Proof.
  intros Hgate Hrun.
  pose proof (shred_unfold ndsum EM_MAXITER COADD_FAILURE BAND_FAILURE
                prep_image GMixEMFixCen GMixEMPOnly make_image set_flux
                float_pow
                uniform gmix_guess s) as Hun.
  cbv zeta in Hun. rewrite Hgate in Hun. rewrite Hun in Hrun. clear Hun.
  set (em := _do_coadd_fit s gmix_guess) in *.
  destruct (@_do_multiband_fit_spec ndsum EM_MAXITER BAND_FAILURE prep_image
              GMixEMFixCen GMixEMPOnly make_image set_flux float_pow
              RandomState uniform
              (refining s (set_gmix (get_gmix em) (Ngmix.get_result em)))
              _ _ (get_gmix em) eq_refl eq_refl eq_refl)
    as (s1 & out & r' & Hrun' & Hr' & _ & _ & _ & Hout & _).
  rewrite Hrun in Hrun'. injection Hrun' as <- <-.
  destruct (Hout eq_refl) as (brs & Hb & _ & HP & HE).
  cbn [res_flags Z.lor] in HP, HE.
  exists r', brs. split; [exact Hr' |]. split; [exact Hb |].
  destruct (existsb _ brs) eqn:Hex.
  - apply HE. apply existsb_exists in Hex. apply Exists_exists.
    destruct Hex as (b & Hin & Hb'). now exists b.
  - apply HP. apply Forall_forall. intros b Hin.
    unfold Shredding.passes.
    destruct (cannot_proceed (flags b)) eqn:Hb'; [| reflexivity].
    assert (existsb (fun b => cannot_proceed (flags b)) brs = true)
      by (apply existsb_exists; now exists b).
    congruence.
Qed.

(** [get_result] raises [RuntimeError] on a shredder that has not run.
    After [shred] it returns the result dictionary, which holds the coadd
    result with the coadd fit's flags, also when [shred] itself raised. *)
Theorem get_result_after_shred :
  (forall mbobs0 miniter0 maxiter0 tol0 rng,
     get_result (__init__ mbobs0 miniter0 maxiter0 tol0 rng)
       = raise RuntimeError) /\
  (forall gmix_guess (s : Shredder),
     exists r c,
       get_result (fst (shred gmix_guess s)) = ok r /\
       coadd_result r = Some c /\
       flags c = flags (Ngmix.get_result (_do_coadd_fit s gmix_guess))).
Proof.
  split; [reflexivity |].
  intros gmix_guess s.
  pose proof (shred_unfold ndsum EM_MAXITER COADD_FAILURE BAND_FAILURE
                prep_image GMixEMFixCen GMixEMPOnly make_image set_flux
                float_pow
                uniform gmix_guess s) as Hun.
  cbv zeta in Hun. rewrite Hun. clear Hun.
  set (em := _do_coadd_fit s gmix_guess) in *.
  destruct (cannot_proceed (flags (Ngmix.get_result em))).
  - do 2 eexists. split; [reflexivity |]. split; reflexivity.
  - destruct (@_do_multiband_fit_spec ndsum EM_MAXITER BAND_FAILURE
                prep_image GMixEMFixCen GMixEMPOnly make_image set_flux
                float_pow
                RandomState uniform
                (refining s (set_gmix (get_gmix em) (Ngmix.get_result em)))
                _ _ (get_gmix em) eq_refl eq_refl eq_refl)
      as (s1 & out & r' & Hrun' & Hr' & Hc' & _).
    rewrite Hrun'. cbn [fst].
    exists r', (set_gmix (get_gmix em) (Ngmix.get_result em)).
    unfold Shredding.get_result. rewrite Hr'.
    split; [reflexivity |]. split; [exact Hc' | reflexivity].
Qed.

(** [shred] starts from a fresh result: what an earlier run left in
    [_result] has no effect on the run, so flags do not accumulate from
    one run to the next. *)
Theorem shred_forgets_previous_result (gmix_guess : GMix) (s : Shredder)
  (old : option ResultDict) :
  shred gmix_guess (set_result old s) = shred gmix_guess s.
Proof.
  rewrite !(shred_unfold ndsum EM_MAXITER COADD_FAILURE BAND_FAILURE
              prep_image GMixEMFixCen GMixEMPOnly make_image set_flux float_pow
              uniform).
  reflexivity.
Qed.

End ShredMoreTheorems.

End ShreddingMore.

Module ShredMoreExamples.

Import Np Ngmix Flux Shredding ShreddingMore.

(** A shredder whose coadd result holds a mixture of two Gaussians, with
    the generator that always draws zero: two draws are made and both
    amplitudes are multiplied by [1.0 + 0]. *)
Lemma _get_band_guess_keeps_shapes_witness :
  _get_band_guess Example.uniform
    (refining Example.shredder2
       (set_gmix [Example.gauss1; Example.gauss_at 0.5 1 2]
          (Ngmix.get_result
             (Example.fitter 0 Example.obs12 10 1000 0.001%float
                [Example.gauss1] 0%float))))
    = (set_rng 2%nat
         (refining Example.shredder2
            (set_gmix [Example.gauss1; Example.gauss_at 0.5 1 2]
               (Ngmix.get_result
                  (Example.fitter 0 Example.obs12 10 1000 0.001%float
                     [Example.gauss1] 0%float)))),
       ok [scale_amplitude Example.gauss1 0;
           scale_amplitude (Example.gauss_at 0.5 1 2) 0]).
Proof.
  exact (proj1 (@_get_band_guess_keeps_shapes nat Example.uniform
                  (refining Example.shredder2
                     (set_gmix [Example.gauss1; Example.gauss_at 0.5 1 2]
                        (Ngmix.get_result
                           (Example.fitter 0 Example.obs12 10 1000
                              0.001%float [Example.gauss1] 0%float))))
                  _ _ _ eq_refl eq_refl eq_refl)).
Defined.

(** Both bands fail with flag 1 after a coadd fit that stopped on the
    iteration budget: the aggregate flags are [BAND_FAILURE]. *)
Lemma band_failure_flag_witness :
  exists r brs,
    _result (fst (Example.shred 2 1 [Example.gauss1] Example.shredder2))
      = Some r /\
    band_results r = Some brs /\
    res_flags r =
      if existsb (fun b => cannot_proceed Example.EM_MAXITER (flags b)) brs
      then Example.BAND_FAILURE else 0.
Proof.
  exact (@band_failure_flag seq_sum Example.EM_MAXITER Example.COADD_FAILURE
           Example.BAND_FAILURE Example.prep_image (Example.fitter 2)
           (Example.fitter 1) Example.make_image Example.set_flux
           Example.float_pow nat
           Example.uniform [Example.gauss1] Example.shredder2
           (fst (Example.shred 2 1 [Example.gauss1] Example.shredder2))
           eq_refl eq_refl).
Defined.

(** A band whose weights are all zero: the fit's flags stay 0, and the
    sentinel is stored as the band's flux and, times [scale ** 2 = 1], as
    the flux of the mixture. *)
Lemma _set_band_flux_and_gmix_returns_witness :
  exists bres,
    _set_band_flux_and_gmix seq_sum Example.make_image Example.set_flux
      Example.float_pow MoreExamples.obs_masked
      (Example.fitter 0 MoreExamples.obs_masked 10 1000 0.001%float
         [Example.gauss1] 0%float)
      = ok bres /\
    flags bres = 0 /\
    total_flux bres = Some (-9999e9)%float /\
    gmix bres = Some (Example.set_flux [Example.gauss1] (-9999e9)%float).
Proof.
  destruct (@_set_band_flux_and_gmix_returns seq_sum Example.make_image
              Example.set_flux Example.float_pow MoreExamples.obs_masked
              (Example.fitter 0 MoreExamples.obs_masked 10 1000 0.001%float
                 [Example.gauss1] 0%float))
    as (bres & Hrun & Hflux & _ & Hgm & Hfl & _).
  exists bres. split; [exact Hrun |]. split; [exact Hfl |].
  split; [exact Hflux | exact Hgm].
Defined.

(** A shredder whose second band holds no observation: the coadd fit
    succeeds, the loop over the bands raises [IndexError] at that band, and
    the result is left without [band_results]. *)
Lemma shred_returns_or_raises_witness :
  snd (Example.shred 0 0 [Example.gauss1]
         (Shredding.__init__ Example.make_coadd_obs [[Example.obs12]; []]
            10 1000 0.001 0%nat))
    = raise IndexError /\
  exists r,
    _result
      (fst (Example.shred 0 0 [Example.gauss1]
              (Shredding.__init__ Example.make_coadd_obs
                 [[Example.obs12]; []] 10 1000 0.001 0%nat)))
      = Some r /\
    band_results r = None.
Proof.
  apply (proj2 (@shred_returns_or_raises seq_sum Example.EM_MAXITER
                  Example.COADD_FAILURE Example.BAND_FAILURE
                  Example.prep_image (Example.fitter 0) (Example.fitter 0)
                  Example.make_image Example.set_flux Example.float_pow nat
                  Example.uniform
                  [Example.gauss1]
                  (Shredding.__init__ Example.make_coadd_obs
                     [[Example.obs12]; []] 10 1000 0.001 0%nat))).
  - reflexivity.
  - apply Exists_cons_tl, Exists_cons_hd. reflexivity.
Defined.

End ShredMoreExamples.

(** ** More on the ModelSubtractor *)

Module SubtractorMore.

Import Np Ngmix Subtractor SubtractorFacts.

(** *** Slices *)

Lemma clamp_index_in_bounds (len i : Z) :
  0 <= i <= len -> clamp_index len i = i.
Proof.
  intro H. unfold clamp_index.
  replace (i <? 0) with false by (symmetry; apply Z.ltb_ge; lia).
  lia.
Qed.

Lemma slice_in_bounds {A : Type} (l : list A) (start stop : Z) :
  0 <= start <= stop -> stop <= Z.of_nat (length l) ->
  slice l start stop
    = firstn (Z.to_nat (stop - start)) (skipn (Z.to_nat start) l) /\
  Z.of_nat (length (slice l start stop)) = stop - start.
Proof.
  intros H1 H2. unfold slice. cbv zeta.
  rewrite !clamp_index_in_bounds by lia.
  split; [reflexivity |].
  rewrite length_firstn, length_skipn. lia.
Qed.

Lemma firstn_add_skipn {A : Type} (a b : nat) :
  forall l : list A, firstn (a + b) l = firstn a l ++ firstn b (skipn a l).
Proof.
  induction a as [| a IH]; intro l; [reflexivity |].
  destruct l as [| x l]; cbn.
  - now rewrite firstn_nil.
  - now rewrite IH.
Qed.

Lemma chunks_concat {A : Type} (per : nat) (l : list A) (n : nat) :
  forall k,
    concat (map (fun i => firstn per (skipn (per * i) l)) (seq k n))
    = firstn (n * per) (skipn (per * k) l).
Proof.
  induction n as [| n IH]; intro k; cbn [seq map concat].
  - reflexivity.
  - rewrite IH. cbn [Nat.mul]. rewrite firstn_add_skipn, skipn_skipn.
    do 3 f_equal. lia.
Qed.

(** Cutting a sequence of [n * per] elements into the [n] slices
    [[per * i : per * (i + 1)]] and joining the slices gives the sequence
    back; every slice has [per] elements. *)
Lemma slices_partition {A : Type} (l : list A) (n per : Z) :
  0 <= n -> 0 <= per -> Z.of_nat (length l) = n * per ->
  concat (map (fun i => slice l (per * i) (per * (i + 1))) (range n)) = l /\
  Forall (fun sl => Z.of_nat (length sl) = per)
         (map (fun i => slice l (per * i) (per * (i + 1))) (range n)).
Proof.
  intros Hn Hper Hlen.
  assert (Hin : forall i, In i (range n) -> 0 <= i < n).
  { intros i Hi. unfold range in Hi. apply in_map_iff in Hi.
    destruct Hi as (k & <- & Hk). apply in_seq in Hk. lia. }
  split.
  - transitivity
      (concat (map (fun i => firstn (Z.to_nat per)
                               (skipn (Z.to_nat per * i) l))
                   (seq 0 (Z.to_nat n)))).
    + unfold range. rewrite map_map. f_equal.
      apply map_ext_in. intros k Hk. apply in_seq in Hk.
      destruct (slice_in_bounds l (start := per * Z.of_nat k)
                  (stop := per * (Z.of_nat k + 1))) as [E _]; [nia | nia |].
      rewrite E. f_equal; [lia | f_equal; nia].
    + rewrite chunks_concat. rewrite Nat.mul_0_r. cbn [skipn].
      apply firstn_all2. nia.
  - apply Forall_forall. intros sl Hsl. apply in_map_iff in Hsl.
    destruct Hsl as (i & <- & Hi). apply Hin in Hi.
    destruct (slice_in_bounds l (start := per * i)
                (stop := per * (i + 1))) as [_ E]; [nia | nia |].
    rewrite E. lia.
Qed.

Lemma mapM_ok_map {A B : Type} (f : A -> Result B) (g : A -> B)
  (l : list A) :
  (forall a, In a l -> f a = ok (g a)) -> mapM f l = ok (map g l).
Proof.
  induction l as [| a l IH]; intro H; cbn [mapM map].
  - reflexivity.
  - rewrite (H a (or_introl eq_refl)). cbn [rbind].
    rewrite IH by (intros b Hb; apply H; now right). reflexivity.
Qed.

Lemma mapM_ok_intro {A B : Type} (f : A -> Result B) (l : list A) :
  Forall (fun a => exists b, f a = ok b) l -> exists bs, mapM f l = ok bs.
Proof.
  induction 1 as [| a l [b Hb] _ [bs IH]]; cbn [mapM].
  - now exists [].
  - rewrite Hb. cbn [rbind]. rewrite IH. now exists (b :: bs).
Qed.

(** The per-object mixtures partition a band's mixture.  When the band's
    pre-PSF mixture has [n * per] Gaussians, the data [get_object_gmix_data]
    returns for the objects [0 .. n - 1], joined in object order, is that
    mixture, and each object gets [per] Gaussians; likewise for the
    convolved mixture and [get_object_gmix_data_convolved]. *)
Theorem object_gmix_data_partition (sh : ShredderView) (n per band : Z)
  (gm : GMix) :
  0 <= n -> 0 <= per -> Z.of_nat (length gm) = n * per ->
  (py_index (band_gmix sh) band = ok gm ->
   exists parts,
     mapM (fun i => get_object_gmix_data sh per i band) (range n) = ok parts /\
     concat parts = gm /\
     Forall (fun part => Z.of_nat (length part) = per) parts) /\
  (py_index (band_gmix_convolved sh) band = ok gm ->
   exists parts,
     mapM (fun i => get_object_gmix_data_convolved sh per i band) (range n)
       = ok parts /\
     concat parts = gm /\
     Forall (fun part => Z.of_nat (length part) = per) parts).
Proof.
  intros Hn Hper Hlen.
  destruct (slices_partition gm Hn Hper Hlen) as [Hcat Hall].
  split; intro Hband;
    exists (map (fun i => slice gm (per * i) (per * (i + 1))) (range n));
    (split; [| split; assumption]);
    apply mapM_ok_map; intros i _.
  - unfold get_object_gmix_data, get_object_index_range.
    now rewrite Hband.
  - unfold get_object_gmix_data_convolved, get_object_index_range_convolved.
    now rewrite Hband.
Qed.

(** *** Construction *)

Lemma enumerate_from_bounds {A : Type} (l : list A) :
  forall k,
    Forall (fun bo : Z * A =>
              k <= fst bo < k + Z.of_nat (length l) /\ In (snd bo) l)
           (enumerate_from k l).
Proof.
  induction l as [| a l IH]; intro k; cbn [enumerate_from]; constructor.
  - cbn [fst snd length]. split; [lia | now left].
  - eapply Forall_impl; [| apply (IH (k + 1))].
    intros bo [Hb Hin]. cbn [length]. split; [lia | now right].
Qed.

Section ConstructionTheorems.

Variable render_pixel : GMix -> Z * Z -> Jacobian -> nat -> nat -> float.

Local Abbreviation __init__ := (__init__ render_pixel).
Local Abbreviation _build_models := (_build_models render_pixel).
Local Abbreviation band_models := (band_models render_pixel).

(** When the result holds a mixture for band 0 in both lists, constructing
    a subtractor for [n] objects raises [ZeroDivisionError] for [n = 0] and
    [ValueError] when [n] does not divide the number of convolved Gaussians
    of band 0; otherwise, when every band holds an observation and has a
    convolved mixture, it succeeds, and the per-object counts are the
    quotients of the two Gaussian counts of band 0 by [n]. *)
Theorem __init___outcome (sh : ShredderView) (n : Z) (gm0 gmc0 : GMix)
  (gms gmcs : list GMix) :
  band_gmix sh = gm0 :: gms ->
  band_gmix_convolved sh = gmc0 :: gmcs ->
  (n = 0 -> __init__ sh n = raise ZeroDivisionError) /\
  (n <> 0 -> Z.of_nat (length gmc0) mod n <> 0 ->
   __init__ sh n = raise ValueError) /\
  (n <> 0 -> Z.of_nat (length gmc0) mod n = 0 ->
   (length (sh_mbobs sh) <= length (band_gmix_convolved sh))%nat ->
   Forall (fun obslist : ObsList => obslist <> []) (sh_mbobs sh) ->
   exists self,
     __init__ sh n = ok self /\
     nobj self = n /\
     ngauss self = Z.of_nat (length gm0) /\
     ngauss_per self = Z.of_nat (length gm0) / n /\
     ngauss_convolved self = Z.of_nat (length gmc0) /\
     ngauss_per_convolved self = Z.of_nat (length gmc0) / n).
Proof.
  intros Hgm Hgmc.
  assert (Hng : _set_ngauss_per sh n =
                if n =? 0 then raise ZeroDivisionError
                else if negb (Z.of_nat (length gmc0) mod n =? 0)
                     then raise ValueError
                     else ok (Z.of_nat (length gm0),
                              Z.of_nat (length gm0) / n,
                              Z.of_nat (length gmc0),
                              Z.of_nat (length gmc0) / n)).
  { unfold _set_ngauss_per. rewrite Hgm, Hgmc, !py_index_cons_0.
    reflexivity. }
  split; [| split].
  - intros ->. unfold Subtractor.__init__. now rewrite Hng.
  - intros Hn Hmod. unfold Subtractor.__init__. rewrite Hng.
    apply Z.eqb_neq in Hn, Hmod. now rewrite Hn, Hmod.
  - intros Hn Hmod Hlen Hne.
    unfold Subtractor.__init__. rewrite Hng.
    apply Z.eqb_neq in Hn. apply Z.eqb_eq in Hmod. rewrite Hn, Hmod.
    cbn [negb]. unfold rbind at 1. unfold ok at 1. cbv beta iota.
    set (per := Z.of_nat (length gmc0) / n).
    assert (Hmodels : exists models, _build_models sh n per = ok models).
    { unfold Subtractor._build_models. apply mapM_ok_intro.
      pose proof (enumerate_from_bounds (sh_mbobs sh) 0) as Hb.
      unfold enumerate. eapply Forall_impl; [| exact Hb].
      intros [band obslist] [Hband Hin]. cbn [fst snd] in *.
      rewrite Forall_forall in Hne. specialize (Hne obslist Hin).
      destruct obslist as [| obs others]; [contradiction |].
      rewrite py_index_cons_0. cbn [rbind].
      unfold Subtractor.band_models. apply mapM_ok_intro.
      apply Forall_forall. intros iobj _.
      unfold get_object_gmix_data_convolved,
        get_object_index_range_convolved.
      destruct (py_index_in_range (band_gmix_convolved sh) (i := band))
        as [gmb ->]; [lia |].
      cbn [rbind]. eexists. reflexivity. }
    destruct Hmodels as [models Hm]. rewrite Hm.
    assert (HF : Forall2 (fun (obslist : ObsList) (_ : list Image) =>
                            exists obs, py_index obslist 0 = ok obs)
                         (sh_mbobs sh) models).
    { unfold Subtractor._build_models in Hm. apply mapM_Forall2 in Hm.
      apply Forall2_enumerate_from in Hm.
      eapply Forall2_impl; [| exact Hm].
      intros obslist ms [band Hb]. cbn in Hb. unfold rbind in Hb.
      destruct (py_index obslist 0) as [e | obs]; [discriminate |].
      now exists obs. }
    destruct (_build_subtracted_mbobs_spec HF) as (sub_mbobs & Hsub & _).
    unfold rbind at 1. unfold ok at 1. cbv beta iota. rewrite Hsub.
    eexists. split; [reflexivity |]. cbn. repeat split.
Qed.

End ConstructionTheorems.

(** *** Stamps *)

(** A window that lies within a rectangular image cuts out as many rows and
    columns as it spans. *)
Lemma slice2_rectangular (a : Image) (nr nc r0 r1 c0 c1 : Z) :
  Z.of_nat (length a) = nr ->
  Forall (fun rowv => Z.of_nat (length rowv) = nc) a ->
  0 <= r0 <= r1 -> r1 <= nr -> 0 <= c0 <= c1 -> c1 <= nc ->
  Z.of_nat (length (slice2 a r0 r1 c0 c1)) = r1 - r0 /\
  Forall (fun rowv => Z.of_nat (length rowv) = c1 - c0)
         (slice2 a r0 r1 c0 c1).
Proof.
  intros Hnr Hnc Hr Hr1 Hc Hc1. unfold slice2. split.
  - rewrite length_map.
    apply (slice_in_bounds a (start := r0) (stop := r1)); lia.
  - apply Forall_forall. intros rowv Hin. apply in_map_iff in Hin.
    destruct Hin as (rowv0 & <- & Hin0).
    assert (Hlen : Z.of_nat (length rowv0) = nc).
    { rewrite Forall_forall in Hnc. apply Hnc.
      destruct (slice_in_bounds a (start := r0) (stop := r1)) as [E _];
        [lia | lia |].
      rewrite E in Hin0.
      rewrite <- (firstn_skipn (Z.to_nat r0) a). apply in_or_app. right.
      rewrite <- (firstn_skipn (Z.to_nat (r1 - r0)) (skipn (Z.to_nat r0) a)).
      apply in_or_app. now left. }
    apply (slice_in_bounds rowv0 (start := c0) (stop := c1)); lia.
Qed.

Lemma _get_start_end_ok (image_dim cen rad : Z) (se : Z * Z) :
  _get_start_end image_dim cen rad = ok se ->
  se = (cen - rad, cen + rad + 1) /\ 0 <= cen - rad <= image_dim.
Proof.
  unfold _get_start_end. cbv zeta.
  destruct (cen - rad <? 0) eqn:E1; [discriminate |].
  destruct (cen - rad >? image_dim) eqn:E2; [discriminate |].
  cbn [orb]. intro H. injection H as <-.
  apply Z.ltb_ge in E1. rewrite Z.gtb_ltb in E2. apply Z.ltb_ge in E2.
  split; [reflexivity | lia].
Qed.

Section StampTheorems.

Variable gmix_get_cen : GMix -> float * float.
Variable get_rowcol : Jacobian -> float -> float -> float * float.

Local Abbreviation get_object_mbobs :=
  (get_object_mbobs gmix_get_cen get_rowcol).

(** A stamp request that returns gives one stamp per band, in band order,
    and is made on a subtractor whose [ngauss_per] is not negative.  All
    stamps are cut with one window, which spans
    [2 * (stamp_size // 2) + 1] rows and as many columns around the pixel
    [(int(row), int(col))] of the centre of the object's pre-PSF mixture of
    band 0; its first row lies between 0 and the height of band 0's image
    and its first column between 0 and the width, both ends included: a
    window that starts at the very end of the image is let through.  Every
    stamp keeps its band's PSF and has the Jacobian of band 0 with its
    centre moved to [(row - row_start, col - col_start)].  When the window
    lies within a band's image, the stamp's image has exactly that many rows
    and columns. *)
Theorem get_object_mbobs_stamps (self : ModelSubtractor)
  (index stamp_size : Z) (stamps : MultiBandObsList) :
  get_object_mbobs self index stamp_size = ok stamps ->
  exists gm obs0 others0 rest irow icol,
    let rad := stamp_size / 2 in
    let cen := gmix_get_cen gm in
    let rowcol := get_rowcol (jacobian obs0) (fst cen) (snd cen) in
    let row_start := irow - rad in
    let row_end := irow + rad + 1 in
    let col_start := icol - rad in
    let col_end := icol + rad + 1 in
    let jac :=
      set_cen (jacobian obs0)
        (fst rowcol - float_of_Z row_start)%float
        (snd rowcol - float_of_Z col_start)%float in
    get_object_gmix self index 0 = ok gm /\
    0 <= ngauss_per self /\
    sh_mbobs (shredder self) = (obs0 :: others0) :: rest /\
    int_of_float (fst rowcol) = ok irow /\
    int_of_float (snd rowcol) = ok icol /\
    row_end - row_start = 2 * rad + 1 /\
    col_end - col_start = 2 * rad + 1 /\
    0 <= row_start <= fst (shape2 (image obs0)) /\
    0 <= col_start <= snd (shape2 (image obs0)) /\
    Forall2
      (fun (obslist stamp_obslist : ObsList) =>
         exists obs others stamp,
           obslist = obs :: others /\
           stamp_obslist = [stamp] /\
           image stamp
             = slice2 (image obs) row_start row_end col_start col_end /\
           weight stamp
             = slice2 (weight obs) row_start row_end col_start col_end /\
           jacobian stamp = jac /\
           psf stamp = psf obs /\
           (forall nr nc,
              0 <= rad ->
              Z.of_nat (length (image obs)) = nr ->
              Forall (fun rowv => Z.of_nat (length rowv) = nc) (image obs) ->
              row_end <= nr -> col_end <= nc ->
              Z.of_nat (length (image stamp)) = 2 * rad + 1 /\
              Forall (fun rowv => Z.of_nat (length rowv) = 2 * rad + 1)
                     (image stamp)))
      (mbobs self) stamps.
Proof.
  unfold Subtractor.get_object_mbobs, rbind.
  destruct (get_object_gmix self index 0) as [e | gm] eqn:Hgm;
    [discriminate |].
  destruct (gmix_get_cen gm) as [v_orig u_orig] eqn:Hcen.
  destruct (py_index (sh_mbobs (shredder self)) 0) as [e | obslist0] eqn:Hl0;
    [discriminate |].
  destruct (py_index obslist0 0) as [e | obs0] eqn:Ho0; [discriminate |].
  destruct (get_rowcol (jacobian obs0) v_orig u_orig)
    as [row_orig col_orig] eqn:Hrc.
  unfold _get_bbox, rbind.
  destruct (int_of_float row_orig) as [e | irow] eqn:Hir; [discriminate |].
  destruct (int_of_float col_orig) as [e | icol] eqn:Hic; [discriminate |].
  destruct (_get_start_end (fst (shape2 (image obs0))) irow (stamp_size / 2))
    as [e | rr] eqn:Hrr; [discriminate |].
  destruct (_get_start_end (snd (shape2 (image obs0))) icol (stamp_size / 2))
    as [e | cc] eqn:Hcc; [discriminate |].
  destruct (_get_start_end_ok _ _ _ Hrr) as [-> Hrb].
  destruct (_get_start_end_ok _ _ _ Hcc) as [-> Hcb].
  cbn [fst snd]. intro Hmap.
  destruct (py_index_0_inv _ Hl0) as [rest Hrest].
  destruct (py_index_0_inv _ Ho0) as [others0 ->].
  exists gm, obs0, others0, rest, irow, icol. cbv zeta.
  rewrite Hcen. cbn [fst snd]. rewrite Hrc. cbn [fst snd].
  split; [reflexivity |].
  split.
  { unfold Subtractor.get_object_gmix, rbind in Hgm.
    destruct (get_object_gmix_data (shredder self) (ngauss_per self) index 0)
      as [e | gmdata]; [discriminate |].
    unfold fill_gmix in Hgm.
    destruct (ngauss_per self <? 0) eqn:Hneg; [discriminate |].
    now apply Z.ltb_ge in Hneg. }
  split; [exact Hrest |].
  split; [exact Hir |]. split; [exact Hic |].
  split; [lia |]. split; [lia |]. split; [exact Hrb |]. split; [exact Hcb |].
  apply mapM_Forall2 in Hmap.
  eapply Forall2_impl; [| exact Hmap].
  intros obslist stamp_obslist Hst. cbn beta in Hst.
  destruct (py_index obslist 0) as [e | obs] eqn:Ho; [discriminate |].
  destruct (py_index_0_inv _ Ho) as [others ->].
  cbn [rbind] in Hst. injection Hst as <-.
  do 3 eexists. split; [reflexivity |]. split; [reflexivity |].
  cbn [image weight jacobian psf].
  repeat (split; [reflexivity |]).
  intros nr nc Hrad Hnr Hnc Hre Hce.
  destruct (slice2_rectangular (a := image obs) (nr := nr) (nc := nc)
              (r0 := irow - stamp_size / 2) (r1 := irow + stamp_size / 2 + 1)
              (c0 := icol - stamp_size / 2) (c1 := icol + stamp_size / 2 + 1))
    as [H1 H2]; try assumption; try lia.
  split; [rewrite H1; lia |].
  eapply Forall_impl; [| exact H2].
  intros rowv Hrow. cbn beta in Hrow. lia.
Qed.

End StampTheorems.

End SubtractorMore.

(** ** get_guess_from_cat *)

Module GuessesFacts.

Import Np Ngmix Guesses SubtractorMore.

Lemma concat_chunks_length {A : Type} (k : nat) (parts : list (list A)) :
  Forall (fun part => length part = k) parts ->
  length (concat parts) = (length parts * k)%nat.
Proof.
  induction 1 as [| part parts Hp _ IH]; cbn [concat length].
  - reflexivity.
  - rewrite length_app, Hp, IH. reflexivity.
Qed.

Lemma concat_chunk_nth {A : Type} (k : nat) (parts : list (list A)) :
  Forall (fun part => length part = k) parts ->
  forall i, (i < length parts)%nat ->
    firstn k (skipn (k * i) (concat parts)) = nth i parts [].
Proof.
  induction 1 as [| part parts Hp _ IH]; intros i Hi; cbn [length] in Hi.
  - lia.
  - cbn [concat]. destruct i as [| i].
    + rewrite Nat.mul_0_r. cbn [skipn nth].
      rewrite <- Hp, <- (Nat.add_0_r (length part)), firstn_app_2.
      cbn [firstn]. apply app_nil_r.
    + cbn [nth]. rewrite <- (IH i) by lia.
      replace (k * S i)%nat with (k * i + length part)%nat by lia.
      rewrite <- skipn_skipn. f_equal. f_equal.
      rewrite skipn_app, skipn_all, Nat.sub_diag. reflexivity.
Qed.

Lemma full_pars_app (a b : GMix) :
  full_pars (a ++ b) = full_pars a ++ full_pars b.
Proof. unfold full_pars. now rewrite map_app, concat_app. Qed.

Lemma of_full_pars_fuel_full_pars (gm : GMix) :
  forall fuel, (length gm <= fuel)%nat ->
    of_full_pars_fuel fuel (full_pars gm) = gm.
Proof.
  induction gm as [| g gm IH]; intros fuel Hf.
  - destruct fuel; reflexivity.
  - destruct fuel as [| fuel]; [cbn in Hf; lia |].
    cbn in Hf. unfold full_pars. cbn [map concat app of_full_pars_fuel].
    fold (full_pars gm). rewrite IH by lia. now destruct g.
Qed.

(** The six-numbers layout read back gives the mixture. *)
Lemma of_full_pars_full_pars (gm : GMix) : of_full_pars (full_pars gm) = gm.
Proof.
  unfold of_full_pars. apply of_full_pars_fuel_full_pars.
  unfold full_pars. rewrite (concat_chunks_length (k := 6)).
  - rewrite length_map. lia.
  - apply Forall_forall. intros l Hl. apply in_map_iff in Hl.
    now destruct Hl as (g & <- & _).
Qed.

Lemma of_full_pars_concat (gms : list GMix) :
  of_full_pars (concat (map full_pars gms)) = concat gms.
Proof.
  rewrite <- (of_full_pars_full_pars (concat gms)). f_equal.
  induction gms as [| gm gms IH]; cbn [map concat]; [reflexivity |].
  now rewrite full_pars_app, IH.
Qed.

Section GuessTheorems.

Variable float_pow : float -> float -> float.
Variable RandomState : Type.
Variable uniform : RandomState -> float -> float -> float * RandomState.
Variable uniform2 :
  RandomState -> float -> float -> (float * float) * RandomState.
Variable GMixBDF : list float -> GMix.
Variable GMixModel : list float -> String.string -> GMix.
Variable get_full_pars : GMix -> list float.
Variable GMix_of_pars : list float -> GMix.

Local Abbreviation object_model :=
  (object_model uniform uniform2 GMixBDF GMixModel).
Local Abbreviation perturb_gauss := (perturb_gauss uniform).
Local Abbreviation object_guess :=
  (object_guess uniform uniform2 GMixBDF GMixModel).
Local Abbreviation perturb_data := (perturb_data uniform).
Local Abbreviation objects_loop :=
  (objects_loop uniform uniform2 GMixBDF GMixModel get_full_pars).
Local Abbreviation guess_pos := (guess_pos float_pow).
Local Abbreviation get_guess_from_cat :=
  (get_guess_from_cat float_pow uniform uniform2 GMixBDF GMixModel
     get_full_pars GMix_of_pars).

Lemma perturb_data_length (pixel_scale : float) (data : GMix) :
  forall rng, length (fst (perturb_data pixel_scale data rng)) = length data.
Proof.
  induction data as [| g data IH]; intro rng; cbn [Guesses.perturb_data].
  - reflexivity.
  - destruct (perturb_gauss pixel_scale g rng) as [g' rng1].
    specialize (IH rng1).
    destruct (perturb_data pixel_scale data rng1) as [rest rng2].
    cbn [fst length] in *. now rewrite IH.
Qed.

Lemma objects_loop_spec (pixel_scale : float) (model : String.string)
  (nobj : Z) (positions : list (float * float * float)) :
  forall guess_pars rng,
    exists parts,
      fst (objects_loop pixel_scale model nobj positions guess_pars rng)
        = guess_pars ++ concat (map get_full_pars parts) /\
      Forall2 (object_guess pixel_scale model nobj) positions parts.
Proof.
  induction positions as [| pos positions IH]; intros guess_pars rng;
    cbn [Guesses.objects_loop].
  - exists []. cbn. rewrite app_nil_r. split; [reflexivity | constructor].
  - destruct (object_model model nobj pos rng) as [gm_model rng1] eqn:Hm.
    destruct (perturb_data pixel_scale gm_model rng1) as [data rng2] eqn:Hd.
    destruct (IH (guess_pars ++ get_full_pars data) rng2) as (parts & Hrun & HF).
    exists (data :: parts). split.
    + rewrite Hrun. cbn [map concat]. now rewrite <- app_assoc.
    + constructor; [| exact HF].
      exists rng. rewrite Hm. cbn [fst snd]. now rewrite Hd.
Qed.

(** The guess for a catalogue is laid out object by object.  When
    [GMix(pars=...)] reads back what [get_full_pars] writes and the
    mixtures of the chosen model ([GMixBDF] for ['bdf'], [GMixModel] with
    the model's name otherwise) have [k] Gaussians each, the guess is the
    join, in catalogue order, of one perturbed model mixture per object; it
    has [k] Gaussians times the number of objects, and the index range that
    [get_object_index_range] gives object [i] for [k] Gaussians per object
    holds exactly the guess of object [i]. *)
Theorem get_guess_from_cat_layout (objs : Catalog) (pixel_scale : float)
  (model : String.string) (rng : RandomState) (k : nat) :
  (forall gms, GMix_of_pars (concat (map get_full_pars gms)) = concat gms) ->
  (forall pars,
     length (if String.eqb model bdf then GMixBDF pars
             else GMixModel pars model) = k) ->
  let guess := fst (get_guess_from_cat objs pixel_scale model rng) in
  exists parts,
    guess = concat parts /\
    Forall2 (object_guess pixel_scale model (cat_size objs))
            (guess_pos pixel_scale objs) parts /\
    Z.of_nat (length parts) = cat_size objs /\
    Z.of_nat (length guess) = cat_size objs * Z.of_nat k /\
    forall i, 0 <= i < cat_size objs ->
      slice guess
        (fst (Subtractor.get_object_index_range (Z.of_nat k) i))
        (snd (Subtractor.get_object_index_range (Z.of_nat k) i))
      = nth (Z.to_nat i) parts [].
Proof.
  intros Hrt Hmodel. cbv zeta.
  unfold Guesses.get_guess_from_cat.
  destruct (objects_loop_spec pixel_scale model (cat_size objs)
              (guess_pos pixel_scale objs) [] rng) as (parts & Hrun & HF).
  destruct (objects_loop pixel_scale model (cat_size objs)
              (guess_pos pixel_scale objs) [] rng) as [guess_pars rng'].
  cbn [fst app] in *. subst guess_pars. rewrite Hrt.
  assert (Hk : Forall (fun part : GMix => length part = k) parts).
  { clear Hrt. induction HF as [| pos part ps parts' [rng0 Hp] _ IH];
      constructor; [| exact IH].
    rewrite Hp, perturb_data_length.
    unfold Guesses.object_model.
    destruct pos as [[Tguess row0] col0].
    destruct (uniform2 rng0 (-0.01)%float 0.01%float) as [[g1 g2] rng1].
    revert Hmodel. destruct (String.eqb model bdf); intro Hmodel.
    - destruct (uniform rng1 0.45%float 0.55%float) as [fracdev rng2].
      apply Hmodel.
    - destruct (String.eqb model bd).
      + destruct (uniform rng1 0.45%float 0.55%float) as [fracdev rng2].
        destruct (uniform rng2 (-0.01)%float 0.01%float) as [lt rng3].
        apply Hmodel.
      + apply Hmodel. }
  assert (Hn : Z.of_nat (length parts) = cat_size objs).
  { rewrite <- (Forall2_length HF).
    destruct objs as [l | l]; cbn [guess_pos cat_size]; now rewrite length_map. }
  exists parts. split; [reflexivity |]. split; [exact HF |].
  split; [exact Hn |].
  pose proof (concat_chunks_length Hk) as Hlen.
  assert (HlenZ : Z.of_nat (length (concat parts))
                  = cat_size objs * Z.of_nat k)
    by (rewrite Hlen, Nat2Z.inj_mul; unfold GMix in *; now rewrite Hn).
  split; [exact HlenZ |].
  intros i Hi. unfold Subtractor.get_object_index_range. cbn [fst snd].
  destruct (slice_in_bounds (concat parts) (start := Z.of_nat k * i)
              (stop := Z.of_nat k * (i + 1))) as [E _];
    [nia | rewrite HlenZ; nia |].
  assert (Hi' : (Z.to_nat i < length parts)%nat)
    by (unfold GMix in *; lia).
  rewrite E. rewrite <- (concat_chunk_nth Hk Hi').
  f_equal; [lia | f_equal; nia].
Qed.

End GuessTheorems.

End GuessesFacts.

(** ** Image grids *)

Module ShapeFacts.

Import Np Ngmix Subtractor SubtractorFacts.

Lemma zip_with_shape (f : float -> float -> float) (a : Image) :
  forall b, shape a = shape b -> shape (map2 f a b) = shape a.
Proof.
  unfold shape, map2.
  induction a as [| ra a IH]; intros b H; destruct b as [| rb b];
    try discriminate; [reflexivity |].
  cbn [map zip_with] in *. injection H as Hr Hrest.
  rewrite (IH b Hrest). f_equal.
  clear - Hr. revert rb Hr.
  induction ra as [| x ra IH]; intros rb Hr; destruct rb as [| y rb];
    try discriminate; [reflexivity |].
  cbn [zip_with length] in *. f_equal. apply IH. now injection Hr.
Qed.

Lemma fold_left_sub_shape (models : list Image) :
  forall im,
    Forall (fun m => shape m = shape im) models ->
    shape (fold_left sub models im) = shape im.
Proof.
  induction models as [| m models IH]; intros im H; cbn [fold_left].
  - reflexivity.
  - inversion H as [| ? ? Hm Hrest]; subst.
    assert (Hs : shape (sub im m) = shape im)
      by (apply zip_with_shape; now symmetry).
    rewrite IH; [exact Hs |].
    eapply Forall_impl; [| exact Hrest].
    intros m' Hm'. cbn beta in Hm'. now rewrite Hs.
Qed.

Section ShapeTheorems.

Variable render_pixel : GMix -> Z * Z -> Jacobian -> nat -> nat -> float.

Local Abbreviation __init__ := (__init__ render_pixel).

(** Construction keeps every band's pixel grid: the image of the
    subtracted observation has as many rows, and as many pixels in each
    row, as the original image of the band, whatever the renderer draws. *)
Theorem subtracted_images_keep_shape (sh : ShredderView) (n : Z)
  (self : ModelSubtractor) :
  __init__ sh n = ok self ->
  Forall2 (fun (obslist sub_obslist : ObsList) =>
             exists obs others diff_obs,
               obslist = obs :: others /\
               sub_obslist = [diff_obs] /\
               shape (image diff_obs) = shape (image obs))
          (sh_mbobs sh) (mbobs self).
Proof.
  intro Hinit. destruct (__init___spec _ _ _ Hinit) as (_ & _ & HF).
  induction HF as [| obslist ms sub_obslist la lb lc
                     (obs & others & band & -> & Hms & ->) _ IH];
    constructor; [| exact IH].
  exists obs, others, (subtract_models obs ms).
  split; [reflexivity |]. split; [reflexivity |].
  rewrite (proj1 (subtract_models_fields ms obs)).
  apply fold_left_sub_shape.
  exact (proj2 (band_models_spec _ _ _ _ _ _ Hms)).
Qed.

End ShapeTheorems.

End ShapeFacts.

(** ** Concrete runs of the further properties *)

Module MoreWitnesses.

Import Np Ngmix Subtractor SubtractorFacts SubtractorMore ShapeFacts.
Import Flux FluxFacts Guesses GuessesFacts.

(** Six Gaussians for two objects: the Gaussian of index 4 belongs to
    object 1. *)
Lemma object_index_ranges_partition_witness :
  exists i,
    (0 <= i < 2 /\
     fst (get_object_index_range (6 / 2) i) <= 4
       < snd (get_object_index_range (6 / 2) i)) /\
    forall j,
      0 <= j < 2 ->
      fst (get_object_index_range (6 / 2) j) <= 4
        < snd (get_object_index_range (6 / 2) j) ->
      j = i.
Proof.
  apply (@object_index_ranges_partition 6 2 4); [lia | reflexivity | lia].
Defined.

(** The six convolved Gaussians of [three_and_six] for two objects. *)
Lemma object_gmix_data_partition_witness :
  exists parts,
    mapM (fun i => get_object_gmix_data_convolved Example.three_and_six 3 i 0)
         (range 2) = ok parts /\
    concat parts = repeat Example.gauss1 6 /\
    Forall (fun part => Z.of_nat (length part) = 3) parts.
Proof.
  refine (proj2 (@object_gmix_data_partition Example.three_and_six 2 3 0
                   (repeat Example.gauss1 6) _ _ _) eq_refl);
    [lia | lia | reflexivity].
Defined.

(** Two objects with one Gaussian each in one band. *)
Lemma __init___outcome_witness :
  exists self,
    __init__ Example.render_pixel (Example.two_objects 0.5) 2 = ok self /\
    nobj self = 2 /\ ngauss_per self = 1 /\ ngauss_per_convolved self = 1.
Proof.
  destruct (@__init___outcome Example.render_pixel (Example.two_objects 0.5)
              2 _ _ _ _ eq_refl eq_refl) as (_ & _ & Hok).
  destruct Hok as (self & Hrun & Hn & _ & Hp & _ & Hpc).
  - discriminate.
  - reflexivity.
  - cbn. lia.
  - repeat constructor. discriminate.
  - exists self. repeat split; assumption.
Defined.

(** The same two objects: the subtracted image has the one pixel of the
    original. *)
Lemma subtracted_images_keep_shape_witness :
  Forall2 (fun (obslist sub_obslist : ObsList) =>
             exists obs others diff_obs,
               obslist = obs :: others /\
               sub_obslist = [diff_obs] /\
               shape (image diff_obs) = shape (image obs))
          (sh_mbobs (Example.two_objects 0.5))
          (mbobs (Example.built (Example.two_objects 0.5) 2)).
Proof.
  exact (subtracted_images_keep_shape Example.render_pixel
           (Example.two_objects 0.5) 2 eq_refl).
Defined.

(** A stamp of size 11 around an object at pixel (10, 10) of an image of
    20 by 20 pixels: one stamp, for the one band. *)
Lemma get_object_mbobs_stamps_witness :
  exists stamps,
    get_object_mbobs Example.gmix_get_cen Example.get_rowcol
      (Example.built MoreExamples.in_the_middle 1) 0 11 = ok stamps /\
    length stamps = 1%nat.
Proof.
  destruct (get_object_mbobs Example.gmix_get_cen Example.get_rowcol
              (Example.built MoreExamples.in_the_middle 1) 0 11)
    as [e | stamps] eqn:Hrun; [vm_compute in Hrun; discriminate |].
  exists stamps. split; [reflexivity |].
  destruct (get_object_mbobs_stamps _ _ _ _ _ Hrun)
    as (gm & obs0 & others0 & rest & irow & icol & H).
  cbv zeta in H.
  destruct H as (_ & _ & _ & _ & _ & _ & _ & _ & _ & HF).
  rewrite <- (Forall2_length HF). reflexivity.
Defined.

(** Three objects and a model of two Gaussians: six Gaussians, two per
    object. *)
Lemma get_guess_from_cat_layout_witness :
  let guess :=
    fst (get_guess_from_cat Example.float_pow Example.uniform
           MoreExamples.uniform2 MoreExamples.two_gaussians
           MoreExamples.GMixModel full_pars of_full_pars
           MoreExamples.catalog3 1%float Guesses.bd 0%nat) in
  exists parts,
    guess = concat parts /\
    Z.of_nat (length parts) = 3 /\
    Z.of_nat (length guess) = 3 * 2.
Proof.
  cbv zeta.
  destruct (@get_guess_from_cat_layout Example.float_pow nat
              Example.uniform MoreExamples.uniform2
              MoreExamples.two_gaussians MoreExamples.GMixModel
              full_pars of_full_pars
              MoreExamples.catalog3 1%float Guesses.bd 0%nat 2%nat)
    as (parts & Hcat & _ & Hn & Hlen & _).
  - exact of_full_pars_concat.
  - intro pars. reflexivity.
  - exists parts. repeat split; assumption.
Defined.

End MoreWitnesses.
